(** * DETIKNews-API: the scraping pipeline of [app.py]

    A shallow embedding of the coroutines of [app.py] ([fetch_page],
    [parse_content], [parse_item], [parse], [fetch_json],
    [get_trending_keywords] and the two routes) and the properties of the
    specification that concern them.

    Modelling choices.
    - A coroutine is a tree ([Coro]) whose only suspension point is the
      [client.get] of httpx; the upstream (the three remote endpoints) answers
      a request by a function of the request.
    - The state threaded through a run is the log of the requests issued so
      far, in the order in which they were put on the wire.
    - [asyncio.gather] starts every task, lets them complete in an order the
      environment chooses, and places the results by position.
    - The markup library (selectolax) is an interface: a parser, selector
      queries, inner text and attributes.
    - Python strings are sequences of code points below 256. *)

From Stdlib Require Import List String Ascii ZArith Bool Lia.
Import ListNotations.

Local Open Scope string_scope.
Local Open Scope list_scope.
Local Open Scope Z_scope.

(** ** Python strings *)

Module PyStr.

(** [str.isspace] on one character, for the code points below 256. *)
Definition isspace (c : ascii) : bool :=
  let n := nat_of_ascii c in
  ((9 <=? n) && (n <=? 13))%nat || ((28 <=? n) && (n <=? 32))%nat
  || (n =? 133)%nat || (n =? 160)%nat.

Fixpoint lstrip (s : string) : string :=
  match s with
  | EmptyString => EmptyString
  | String c s' => if isspace c then lstrip s' else s
  end.

Fixpoint rstrip (s : string) : string :=
  match s with
  | EmptyString => EmptyString
  | String c s' =>
      match rstrip s' with
      | EmptyString => if isspace c then EmptyString else String c EmptyString
      | r => String c r
      end
  end.

(** [s.strip()] *)
Definition strip (s : string) : string := rstrip (lstrip s).

(** The line feed, and [sep.join(l)]. *)
Definition LF : string := String (ascii_of_nat 10) EmptyString.

Definition join (sep : string) (l : list string) : string := String.concat sep l.

(** [p in s] on strings: [p] occurs in [s] as a substring. *)
Fixpoint contains (p s : string) : bool :=
  String.prefix p s ||
  match s with
  | EmptyString => false
  | String _ s' => contains p s'
  end.

(** Truth value of a string: non-empty. *)
Definition truthy (s : string) : bool :=
  match s with EmptyString => false | _ => true end.

(** Python's [range(lo, hi)]. *)
Definition range (lo hi : Z) : list Z :=
  map (fun i => lo + Z.of_nat i) (seq 0 (Z.to_nat (hi - lo))).

End PyStr.

(** ** Association lists: dict literals and attribute tables *)

Fixpoint lookup {V : Type} (k : string) (d : list (string * V)) : option V :=
  match d with
  | [] => None
  | (k', v) :: d' => if String.eqb k k' then Some v else lookup k d'
  end.

(** ** Exceptions and results *)

(** What [client.get] can raise.  httpx raises [HTTPStatusError] only from
    [Response.raise_for_status], which [app.py] never calls; the constructor
    is kept because [fetch_page] and [fetch_json] have a handler for it. *)
Inductive HttpxError : Type :=
| TimeoutException
| HTTPStatusError
| TransportError (name : string).

Inductive Exn : Type :=
| HTTPException (status_code : Z) (detail : string)
| Httpx (e : HttpxError)            (* an httpx exception no handler took *)
| UnboundLocalError (name : string)
| AttributeError
| KeyError (key : string)
| TypeError
| JSONDecodeError
| RequestValidationError.            (* FastAPI's 422 on [Query(1, ge=1)] *)

Inductive Result (A : Type) : Type :=
| Ok (a : A)
| Err (e : Exn).
Arguments Ok {A} a.
Arguments Err {A} e.

(** ** JSON values as [json.loads] decodes them *)

(** Numbers are integers: the code observes a number only through its truth
    value and its type.  An object is the decoded dict, keys distinct. *)
#[local] Set Warnings "-register-all".
Inductive JSON : Type :=
| JNull
| JBool (b : bool)
| JNum (n : Z)
| JStr (s : string)
| JArr (l : list JSON)
| JObj (o : list (string * JSON)).

(** ** Requests and responses *)

Inductive Param : Type :=
| PStr (s : string)
| PInt (n : Z).

Record Request : Type := mkRequest {
  rq_url : string;
  rq_params : list (string * Param);
  rq_headers : list (string * string);
  rq_timeout : Z
}.

(** [json] is the outcome of [response.json()]: [None] when the body does not
    decode. *)
Record Response : Type := mkResponse {
  status_code : Z;
  text : string;
  json : option JSON
}.

Inductive GetOutcome : Type :=
| Responded (response : Response)
| Raised (e : HttpxError).

Definition Log : Type := list Request.

(** ** Coroutines *)

Inductive Coro (A : Type) : Type :=
| Return (a : A)
| Raise (e : Exn)
| ClientGet (rq : Request) (k : GetOutcome -> Coro A).
Arguments Return {A} a.
Arguments Raise {A} e.
Arguments ClientGet {A} rq k.

Fixpoint bind {A B : Type} (c : Coro A) (f : A -> Coro B) : Coro B :=
  match c with
  | Return a => f a
  | Raise e => Raise e
  | ClientGet rq k => ClientGet rq (fun o => bind (k o) f)
  end.

Notation "x <- c ;; k" := (bind c (fun x => k))
  (at level 61, c at next level, right associativity).

(** A comprehension whose body may raise: left to right, stopping at the
    first exception. *)
Fixpoint for_each {A B : Type} (f : A -> Coro B) (l : list A) : Coro (list B) :=
  match l with
  | [] => Return []
  | x :: l' => y <- f x ;; ys <- for_each f l' ;; Return (y :: ys)
  end.

(** ** The environment of a run *)

(** [upstream] answers a request; [completion] gives, for a [gather] entered
    with a given log, the order in which its tasks complete (positions in the
    argument list; tasks it does not name complete afterwards, in launch
    order). *)
Record Env : Type := mkEnv {
  upstream : Request -> GetOutcome;
  completion : Log -> list nat
}.

(** Sequential meaning of a coroutine: the value or exception it ends with and
    the requests it issues on the way. *)
Fixpoint outcome {A : Type} (up : Request -> GetOutcome) (c : Coro A) : Result A :=
  match c with
  | Return a => Ok a
  | Raise e => Err e
  | ClientGet rq k => outcome up (k (up rq))
  end.

Fixpoint trace {A : Type} (up : Request -> GetOutcome) (c : Coro A) : Log :=
  match c with
  | Return _ => []
  | Raise _ => []
  | ClientGet rq k => rq :: trace up (k (up rq))
  end.

(** Top-level code runs against the environment and the log. *)
Definition M (A : Type) : Type := Env -> Log -> Result A * Log.

Definition ret {A : Type} (a : A) : M A := fun _ log => (Ok a, log).

Definition raise {A : Type} (e : Exn) : M A := fun _ log => (Err e, log).

Definition mbind {A B : Type} (m : M A) (f : A -> M B) : M B :=
  fun env log =>
    match m env log with
    | (Ok a, log') => f a env log'
    | (Err e, log') => (Err e, log')
    end.

Notation "x <-- m ;; k" := (mbind m (fun x => k))
  (at level 61, m at next level, right associativity).

(** [await c]: run [c] to its end, one request after the other. *)
Fixpoint await {A : Type} (c : Coro A) : M A :=
  fun env log =>
    match c with
    | Return a => (Ok a, log)
    | Raise e => (Err e, log)
    | ClientGet rq k => await (k (upstream env rq)) env (log ++ [rq])
    end.

(** ** [asyncio.gather] *)

Inductive Slot (A : Type) : Type :=
| Pending (rq : Request) (k : GetOutcome -> Coro A)
| Done (a : A)
| Failed (e : Exn).
Arguments Pending {A} rq k.
Arguments Done {A} a.
Arguments Failed {A} e.

(** A task runs, without suspending, up to its first [client.get]. *)
Definition start {A : Type} (c : Coro A) : Slot A :=
  match c with
  | Return a => Done a
  | Raise e => Failed e
  | ClientGet rq k => Pending rq k
  end.

(** The request a slot has just put on the wire. *)
Definition issued {A : Type} (s : Slot A) : Log :=
  match s with
  | Pending rq _ => [rq]
  | _ => []
  end.

Fixpoint first_failed {A : Type} (slots : list (Slot A)) : option Exn :=
  match slots with
  | [] => None
  | Failed e :: _ => Some e
  | _ :: slots' => first_failed slots'
  end.

Fixpoint set_nth {A : Type} (i : nat) (x : A) (l : list A) {struct l} : list A :=
  match l, i with
  | [], _ => []
  | _ :: l', O => x :: l'
  | y :: l', S i' => y :: set_nth i' x l'
  end.

(** The answers arrive in the order [order]; the task whose answer arrives
    runs up to its next [client.get] or to its end.  The first task that ends
    with an exception makes [gather] raise it at once. *)
Fixpoint complete {A : Type} (up : Request -> GetOutcome) (order : list nat)
    (slots : list (Slot A)) (log : Log) : Result (list (Slot A)) * Log :=
  match order with
  | [] => (Ok slots, log)
  | i :: order' =>
      match nth_error slots i with
      | Some (Pending rq k) =>
          let s := start (k (up rq)) in
          match s with
          | Failed e => (Err e, log)
          | _ => complete up order' (set_nth i s slots) (log ++ issued s)
          end
      | _ => complete up order' slots log
      end
  end.

(** The tasks still pending after that complete in launch order. *)
Fixpoint drain {A : Type} (slots : list (Slot A)) : M (list A) :=
  match slots with
  | [] => ret []
  | Done a :: slots' => l <-- drain slots' ;; ret (a :: l)
  | Failed e :: _ => raise e
  | Pending rq k :: slots' =>
      fun env => (a <-- await (k (upstream env rq)) ;;
                  l <-- drain slots' ;; ret (a :: l)) env
  end.

(** [await asyncio.gather] of the tasks.  The event loop runs the first step
    of every task, in the order of the argument list, before it handles any
    answer or any exception: every task has issued its first request, or has
    ended, when the first exception is propagated, and an exception raised in
    a first step is propagated before any answer is looked at.  The tasks
    that have not ended when [gather] raises are left to themselves; their
    results are not observed. *)
Definition gather {A : Type} (tasks : list (Coro A)) : M (list A) :=
  fun env log =>
    let slots := map start tasks in
    let log1 := log ++ List.concat (map issued slots) in
    match first_failed slots with
    | Some e => (Err e, log1)
    | None =>
        match complete (upstream env) (completion env log) slots log1 with
        | (Ok slots', log2) => drain slots' env log2
        | (Err e, log2) => (Err e, log2)
        end
    end.

(** ** The markup library (selectolax) *)

(** [HTMLParser(html)] and the nodes it yields answer [css] queries (all
    matches, in document order); a node has its inner text and its
    attributes.  Attribute values are strings.  selectolax gives [None] for
    an attribute that is empty or has no value; the interface has no such
    value, and the statements that read the value of an attribute take it
    not empty. *)
Class Markup : Type := {
  Node : Type;
  HTMLParser : string -> Node;
  css : Node -> string -> list Node;
  node_text : Node -> string;
  attrs : Node -> list (string * string)
}.

(** ** [app.py] *)

Section App.

Context {markup : Markup}.

(** [css_first]: the first match, or [None]. *)
Definition css_first (n : Node) (query : string) : option Node :=
  hd_error (css n query).

(** [node.text()] where [node] may be [None]. *)
Definition text_of (n : option Node) : Coro string :=
  match n with
  | Some n => Return (node_text n)
  | None => Raise AttributeError
  end.

(** [node.attrs[name]] where [node] may be [None]. *)
Definition attr_of (n : option Node) (name : string) : Coro string :=
  match n with
  | Some n =>
      match lookup name (attrs n) with
      | Some v => Return v
      | None => Raise (KeyError name)
      end
  | None => Raise AttributeError
  end.

Record ScrapeResult : Type := mkScrapeResult {
  title : string;
  url : string;
  date : string;
  desc : string;
  content : string
}.

(** In both handlers [response] is read although the [client.get] that
    would have bound it is what raised.  A [client.get] that raises before
    anything is sent (httpx does so on a URL without scheme) is an answer
    [Raised] like one that fails after the request has left; the statements
    that depend on a task being suspended on its fetch say that the fetch has
    left. *)
Definition fetch_page (url : string) (params : list (string * Param))
    (headers : list (string * string)) : Coro string :=
  ClientGet (mkRequest url params headers 10) (fun got =>
    match got with
    | Responded response => Return (text response)
    | Raised TimeoutException =>
        Raise (HTTPException 504 ("Timeout: unable to connect to " ++ url))
    | Raised HTTPStatusError => Raise (UnboundLocalError "response")
    | Raised e => Raise (Httpx e)
    end).

Definition parse_content (url : string) : Coro string :=
  html <- fetch_page url [] [] ;;
  let parser := HTMLParser html in
  let paragraphs := map node_text (css parser "div.detail__body-text > p") in
  Return (match paragraphs with
          | [] => "No content available."
          | _ => PyStr.join PyStr.LF paragraphs
          end).

Definition parse_item (result : Node) : Coro ScrapeResult :=
  title <- text_of (css_first result "h3.media__title") ;;
  date <- attr_of (css_first result ".media__date > span") "title" ;;
  url <- attr_of (css_first result "a") "href" ;;
  let desc_element := css_first result "div.media__desc" in
  let desc := match desc_element with
              | Some d => node_text d
              | None => "No description"
              end in
  content <- parse_content url ;;
  Return {| title := PyStr.strip title;
            url := url;
            date := date;
            desc := PyStr.strip desc;
            content := content |}.

Definition parse (url : string) (params : list (string * Param))
    (headers : list (string * string)) : M (list ScrapeResult) :=
  html <-- await (fetch_page url params headers) ;;
  if negb (PyStr.truthy html) then ret []
  else
    let parser := HTMLParser html in
    let search_results := css parser "article" in
    gather (map parse_item search_results).

Definition fetch_json (url : string) (headers : list (string * string))
  : Coro JSON :=
  ClientGet (mkRequest url [] headers 10) (fun got =>
    match got with
    | Responded response =>
        match json response with
        | Some data => Return data
        | None => Raise JSONDecodeError
        end
    | Raised TimeoutException =>
        Raise (HTTPException 504 ("Timeout: unable to connect to " ++ url))
    | Raised HTTPStatusError => Raise (UnboundLocalError "response")
    | Raised e => Raise (Httpx e)
    end).

(** Python on decoded JSON: truth value, [key in v], [v[key]] with a
    string key, and iteration. *)
Definition truthy (v : JSON) : bool :=
  match v with
  | JNull => false
  | JBool b => b
  | JNum n => negb (n =? 0)
  | JStr s => PyStr.truthy s
  | JArr l => match l with [] => false | _ => true end
  | JObj o => match o with [] => false | _ => true end
  end.

Definition is_str (key : string) (v : JSON) : bool :=
  match v with
  | JStr s => String.eqb key s
  | _ => false
  end.

Definition py_in (key : string) (v : JSON) : Coro bool :=
  match v with
  | JObj o => Return (match lookup key o with Some _ => true | None => false end)
  | JArr l => Return (existsb (is_str key) l)
  | JStr s => Return (PyStr.contains key s)
  | _ => Raise TypeError
  end.

Definition getitem (v : JSON) (key : string) : Coro JSON :=
  match v with
  | JObj o =>
      match lookup key o with
      | Some x => Return x
      | None => Raise (KeyError key)
      end
  | _ => Raise TypeError
  end.

Definition py_iter (v : JSON) : Coro (list JSON) :=
  match v with
  | JArr l => Return l
  | JObj o => Return (map (fun kv => JStr (fst kv)) o)
  | JStr s => Return (map (fun c => JStr (String c EmptyString)) (list_ascii_of_string s))
  | _ => Raise TypeError
  end.

Definition get_trending_keywords (api_url : string)
    (headers : list (string * string)) : Coro (list JSON) :=
  json_data <- fetch_json api_url headers ;;
  if negb (truthy json_data) then Return [] else
  has_body <- py_in "body" json_data ;;
  if negb has_body then Return [] else
  body <- getitem json_data "body" ;;
  has_top <- py_in "topKeywordSearch" body ;;
  if negb has_top then Return [] else
  body <- getitem json_data "body" ;;
  top <- getitem body "topKeywordSearch" ;;
  items <- py_iter top ;;
  for_each (fun item => getitem item "keyword") items.

Definition user_agent : list (string * string) :=
  [("User-Agent",
    "Mozilla/5.0 (Windows NT 10.0; Win64; x64) AppleWebKit/537.36 (KHTML, like Gecko) Chrome/244.178.44.111 Safari/537.36")].

Definition trending_url : string := "https://explore-api.detik.com/trending".

(** [GET /trending_keywords] *)
Definition trending_keywords : M (list JSON) :=
  let headers := user_agent in
  let api_url := trending_url in
  await (get_trending_keywords api_url headers).

Definition search_url : string := "https://www.detik.com/search/searchall?".

Definition page_params (keyword : string) (page : Z) : list (string * Param) :=
  [("query", PStr keyword); ("page", PInt page)].

(** The loop of [scrape] over the page numbers still to do. *)
Fixpoint scrape_loop (keyword : string) (pages : list Z)
    (all_items : list ScrapeResult) : M (list ScrapeResult) :=
  match pages with
  | [] => ret all_items
  | page :: pages' =>
      let params := page_params keyword page in
      items <-- parse search_url params user_agent ;;
      scrape_loop keyword pages' (all_items ++ items)
  end.

(** [GET /scrape]; [pages] is declared [Query(1, ge=1)]. *)
Definition scrape (keyword : string) (pages : Z) : M (list ScrapeResult) :=
  if pages <? 1 then raise RequestValidationError
  else scrape_loop keyword (PyStr.range 1 (pages + 1)) [].

End App.

(** ** A test double for the upstream and the markup library *)

Module Fixture.

(** A node that carries its text, its attributes and its answers to the
    selector queries. *)
Inductive Canned : Type :=
| canned (ctext : string) (cattrs : list (string * string))
         (queries : list (string * list Canned)).

Definition canned_text (n : Canned) : string :=
  match n with canned t _ _ => t end.

Definition canned_attrs (n : Canned) : list (string * string) :=
  match n with canned _ a _ => a end.

Definition canned_css (n : Canned) (query : string) : list Canned :=
  match n with
  | canned _ _ q => match lookup query q with Some l => l | None => [] end
  end.

Definition leaf (t : string) : Canned := canned t [] [].

(** A stub of a listing page. *)
Definition stub (title date href : string) (description : option string) : Canned :=
  canned title []
    ([("h3.media__title", [leaf title]);
      (".media__date > span", [canned "1 jam yang lalu" [("title", date)] []]);
      ("a", [canned title [("href", href)] []])]
     ++ match description with
        | Some d => [("div.media__desc", [leaf d])]
        | None => []
        end).

Definition stub1 : Canned :=
  stub "  Banjir Jakarta " "Senin, 01 Jan 2024 10:00 WIB" "https://news.detik.com/a1"
       (Some " Air naik.  ").
Definition stub2 : Canned :=
  stub "Banjir Bekasi" "Senin, 01 Jan 2024 11:00 WIB" "https://news.detik.com/a2" None.
Definition stub3 : Canned :=
  stub "Banjir Bogor" "Selasa, 02 Jan 2024 09:00 WIB" "https://news.detik.com/a3"
       (Some "Hujan deras.").
(** A stub without its title element. *)
Definition stub_untitled : Canned :=
  canned "" [] [("a", [canned "" [("href", "https://news.detik.com/a1")] []])].

Definition listing (stubs : list Canned) : Canned :=
  canned "" [] [("article", stubs)].

Definition article (paragraphs : list string) : Canned :=
  canned "" [] [("div.detail__body-text > p", map leaf paragraphs)].

(** The documents the parser knows, by their source text. *)
Definition documents : list (string * Canned) :=
  [("<listing 1>", listing [stub1; stub2]);
   ("<listing 2>", listing [stub3]);
   ("<listing 3>", listing []);
   ("<listing 6>", listing [stub2; stub_untitled]);
   ("<article 1>", article ["Satu."; "Dua."]);
   ("<article 2>", article []);
   ("<article 3>", article ["Tiga."])].

Definition canned_parser (html : string) : Canned :=
  match lookup html documents with
  | Some d => d
  | None => canned "" [] []
  end.

#[export] Instance canned_markup : Markup := {|
  Node := Canned;
  HTMLParser := canned_parser;
  css := canned_css;
  node_text := canned_text;
  attrs := canned_attrs
|}.

Definition ok_page (body : string) : GetOutcome :=
  Responded (mkResponse 200 body None).

Definition is_page (n : Z) (params : list (string * Param)) : bool :=
  match lookup "page" params with
  | Some (PInt m) => m =? n
  | _ => false
  end.

(** The search endpoint serves pages 1 to 4, the fourth one empty-bodied, and
    page 6, which has a stub without title; it times out on the others.
    Three articles exist. *)
Definition site (rq : Request) : GetOutcome :=
  if String.eqb (rq_url rq) search_url then
    if is_page 1 (rq_params rq) then ok_page "<listing 1>"
    else if is_page 2 (rq_params rq) then ok_page "<listing 2>"
    else if is_page 3 (rq_params rq) then ok_page "<listing 3>"
    else if is_page 4 (rq_params rq) then ok_page ""
    else if is_page 6 (rq_params rq) then ok_page "<listing 6>"
    else Raised TimeoutException
  else if String.eqb (rq_url rq) "https://news.detik.com/a1" then ok_page "<article 1>"
  else if String.eqb (rq_url rq) "https://news.detik.com/a2" then ok_page "<article 2>"
  else if String.eqb (rq_url rq) "https://news.detik.com/a3" then ok_page "<article 3>"
  else Responded (mkResponse 404 "Not Found" None).

(** Answers complete in launch order, or last first. *)
Definition in_order : Env := mkEnv site (fun _ => []).
Definition reversed : Env := mkEnv site (fun _ => [3; 2; 1; 0]%nat).

(** The same site with the second article timing out. *)
Definition slow_site (rq : Request) : GetOutcome :=
  if String.eqb (rq_url rq) "https://news.detik.com/a2" then Raised TimeoutException
  else site rq.
Definition slow : Env := mkEnv slow_site (fun _ => [1; 0]%nat).

(** The trending endpoint answering with a given decoded payload. *)
Definition feed (payload : JSON) : Env :=
  mkEnv (fun _ => Responded (mkResponse 200 "" (Some payload))) (fun _ => []).

Definition payload_ab : JSON :=
  JObj [("body", JObj [("topKeywordSearch",
          JArr [JObj [("keyword", JStr "a")]; JObj [("keyword", JStr "b")]])])].

End Fixture.

(** ** Further scenes on the test double *)

Module Scenes.

Import Fixture.


(** The first article cannot be reached, the second one times out. *)
Definition flaky_site (rq : Request) : GetOutcome :=
  if String.eqb (rq_url rq) "https://news.detik.com/a1"
  then Raised (TransportError "ConnectError")
  else slow_site rq.
Definition flaky_first : Env := mkEnv flaky_site (fun _ => [0; 1]%nat).
Definition flaky_last : Env := mkEnv flaky_site (fun _ => [1; 0]%nat).


(** The trending endpoint answering with a given status and payload. *)
Definition feed_with_status (status : Z) (payload : JSON) : Env :=
  mkEnv (fun _ => Responded (mkResponse status "" (Some payload))) (fun _ => []).

(** The trending endpoint timing out, and answering with a page that is not
    JSON. *)
Definition feed_down : Env := mkEnv (fun _ => Raised TimeoutException) (fun _ => []).
Definition feed_html : Env :=
  mkEnv (fun _ => Responded (mkResponse 200 "<html></html>" None)) (fun _ => []).

End Scenes.

(** ** Vocabulary of the statements *)

(** What a slot of [gather] still has to do: its result and the requests it
    will issue, were it run alone from where it stands. *)
Definition slot_outcome {A : Type} (up : Request -> GetOutcome) (s : Slot A) : Result A :=
  match s with
  | Pending rq k => outcome up (k (up rq))
  | Done a => Ok a
  | Failed e => Err e
  end.

Definition slot_trace {A : Type} (up : Request -> GetOutcome) (s : Slot A) : Log :=
  match s with
  | Pending rq k => trace up (k (up rq))
  | _ => []
  end.

(** Slot [s] is task [c] part of the way: same result, and the requests of
    [c] are those already in the log followed by those [s] has left. *)
Definition tracks {A : Type} (up : Request -> GetOutcome) (log : Log)
    (c : Coro A) (s : Slot A) : Prop :=
  slot_outcome up s = outcome up c /\
  exists past, trace up c = past ++ slot_trace up s /\ incl past log.

(** A request some task of the list issues when run alone. *)
Definition of_tasks {A : Type} (up : Request -> GetOutcome) (tasks : list (Coro A))
    (rq : Request) : Prop :=
  exists c, In c tasks /\ In rq (trace up c).

(** [log'] is [log] followed by requests of the tasks. *)
Definition extends {A : Type} (up : Request -> GetOutcome) (tasks : list (Coro A))
    (log log' : Log) : Prop :=
  exists extra, log' = log ++ extra /\ Forall (of_tasks up tasks) extra.

(** Some task ends with [e] and has issued all its requests by [log']. *)
Definition failed_task {A : Type} (up : Request -> GetOutcome) (tasks : list (Coro A))
    (log' : Log) (e : Exn) : Prop :=
  exists c, In c tasks /\ outcome up c = Err e /\ incl (trace up c) log'.


Definition success (s : Z) : bool := (200 <=? s) && (s <? 300).

(** The request of [fetch_page] for an article and for a listing page. *)
Definition article_request (url : string) : Request := mkRequest url [] [] 10.

Definition listing_request (keyword : string) (page : Z) : Request :=
  mkRequest search_url (page_params keyword page) user_agent 10.

(** Listing fetches carry query parameters, article fetches never do. *)
Definition is_listing (rq : Request) : bool :=
  match rq_params rq with
  | [] => false
  | _ => String.eqb (rq_url rq) search_url
  end.

(** Exceptions of a stub that lacks a required element or attribute. *)
Definition malformed (e : Exn) : Prop :=
  e = AttributeError \/ exists key, e = KeyError key.


(** The decoded payload has the path [body.topKeywordSearch]. *)
Definition has_path (payload : JSON) : bool :=
  match payload with
  | JObj o =>
      match lookup "body" o with
      | Some (JObj b) =>
          match lookup "topKeywordSearch" b with Some _ => true | None => false end
      | _ => false
      end
  | _ => false
  end.

Definition has_keyword (item : JSON) : bool :=
  match item with
  | JObj o => match lookup "keyword" o with Some _ => true | None => false end
  | _ => false
  end.

Section Vocabulary.

Context {markup : Markup}.

(** The record built from a stub: what [parse_item] returns on it. *)
Definition record_of (env : Env) (result : Node) : Result ScrapeResult :=
  outcome (upstream env) (parse_item result).

(** The stubs of a listing page. *)
Definition stubs_of (html : string) : list Node := css (HTMLParser html) "article".

(** The records of one page of results. *)
Definition page_records (env : Env) (keyword : string) (page : Z)
  : Result (list ScrapeResult) :=
  fst (parse search_url (page_params keyword page) user_agent env []).

(** The paragraphs of an article page. *)
Definition paragraphs_of (html : string) : list Node :=
  css (HTMLParser html) "div.detail__body-text > p".

End Vocabulary.

(** ** Vocabulary of the further properties *)

(** A task that ends as soon as its first request is answered. *)
Definition one_shot {A : Type} (c : Coro A) : Prop :=
  match c with
  | ClientGet _ k =>
      forall got, match k got with ClientGet _ _ => False | _ => True end
  | _ => True
  end.

Definition slot_one_shot {A : Type} (s : Slot A) : Prop :=
  match s with
  | Pending _ k =>
      forall got, match k got with ClientGet _ _ => False | _ => True end
  | _ => True
  end.

(** No white space at the start, at the end, of a string. *)
Definition starts_clean (s : string) : bool :=
  match s with
  | EmptyString => true
  | String c _ => negb (PyStr.isspace c)
  end.

Fixpoint ends_clean (s : string) : bool :=
  match s with
  | EmptyString => true
  | String c s' =>
      match s' with
      | EmptyString => negb (PyStr.isspace c)
      | _ => ends_clean s'
      end
  end.

Definition trimmed (s : string) : bool := starts_clean s && ends_clean s.

(** Nothing but white space. *)
Fixpoint blank (s : string) : bool :=
  match s with
  | EmptyString => true
  | String c s' => PyStr.isspace c && blank s'
  end.

(** Texts one per line: the first one, then each of the others after a line
    feed (the character of code 10). *)
Fixpoint newline_separated (first : string) (rest : list string) : string :=
  match rest with
  | [] => first
  | t :: rest' => first ++ String "010"%char (newline_separated t rest')
  end.

(** A fetch that has left: it is answered, or it times out.  (A
    [client.get] can also raise before anything is sent, on a URL without
    scheme for instance: such a call never suspends.) *)
Definition in_flight (up : Request -> GetOutcome) (rq : Request) : Prop :=
  (exists response, up rq = Responded response) \/ up rq = Raised TimeoutException.

(** A coroutine that has nothing left to fetch. *)
Definition settled {A : Type} (c : Coro A) : Prop :=
  match c with
  | ClientGet _ _ => False
  | _ => True
  end.

(** The value of [key] in an entry of the feed. *)
Definition keyword_is (item value : JSON) : Prop :=
  exists o, item = JObj o /\ lookup "keyword" o = Some value.

Section FurtherVocabulary.

Context {markup : Markup}.

(** The title text, the date and the link of a stub that has all three. *)
Definition stub_fields (result : Node) : option (string * string * string) :=
  match css_first result "h3.media__title" with
  | None => None
  | Some t =>
      match css_first result ".media__date > span" with
      | None => None
      | Some dn =>
          match lookup "title" (attrs dn) with
          | None => None
          | Some d =>
              match css_first result "a" with
              | None => None
              | Some an =>
                  match lookup "href" (attrs an) with
                  | None => None
                  | Some u => Some (node_text t, d, u)
                  end
              end
          end
      end
  end.

(** The links of the stubs that have their three fields, in document
    order. *)
Definition links_of (stubs : list Node) : list string :=
  flat_map (fun result =>
              match stub_fields result with
              | Some (_, _, u) => [u]
              | None => []
              end) stubs.

(** The stubs [parse] finds when it fetches [rq]: none when the fetch is not
    answered or is answered with an empty body. *)
Definition listed (env : Env) (rq : Request) : list Node :=
  match upstream env rq with
  | Responded response =>
      if PyStr.truthy (text response) then stubs_of (text response) else []
  | Raised _ => []
  end.

(** The records of the listing page that answers [rq]: one per stub, in
    document order; none when the body is empty. *)
Definition listing_records (env : Env) (rq : Request) (segment : list ScrapeResult)
  : Prop :=
  exists response,
    upstream env rq = Responded response /\
    if PyStr.truthy (text response)
    then Forall2 (fun result item => record_of env result = Ok item)
                 (stubs_of (text response)) segment
    else segment = [].

(** A stub whose link is not empty, and one whose article fetch moreover
    has left. *)
Definition link_given (result : Node) : Prop :=
  forall t d u, stub_fields result = Some (t, d, u) -> u <> "".

Definition link_in_flight (up : Request -> GetOutcome) (result : Node) : Prop :=
  exists t d u,
    stub_fields result = Some (t, d, u) /\ u <> "" /\
    in_flight up (article_request u).

(** The requests of one page of results: the listing fetch, then one article
    fetch per link. *)
Definition page_requests (env : Env) (keyword : string) (page : Z) : Log :=
  listing_request keyword page
  :: map article_request (links_of (listed env (listing_request keyword page))).

End FurtherVocabulary.

(** ** Coroutines run alone *)

Lemma await_spec {A : Type} (c : Coro A) (env : Env) (log : Log) :
  await c env log = (outcome (upstream env) c, log ++ trace (upstream env) c).
Proof.
  revert log; induction c as [a | e | rq k IH]; intros log; simpl.
  - now rewrite app_nil_r.
  - now rewrite app_nil_r.
  - rewrite IH, <- app_assoc. reflexivity.
Qed.

Lemma outcome_bind {A B : Type} up (c : Coro A) (f : A -> Coro B) :
  outcome up (bind c f) =
  match outcome up c with
  | Ok a => outcome up (f a)
  | Err e => Err e
  end.
Proof. induction c as [a | e | rq k IH]; simpl; auto. Qed.

Lemma trace_bind {A B : Type} up (c : Coro A) (f : A -> Coro B) :
  trace up (bind c f) =
  trace up c ++ match outcome up c with
                | Ok a => trace up (f a)
                | Err _ => []
                end.
Proof. induction c as [a | e | rq k IH]; simpl; auto. now rewrite IH. Qed.

(** ** Slots of [gather] *)

Lemma start_outcome {A : Type} up (c : Coro A) :
  slot_outcome up (start c) = outcome up c.
Proof. destruct c; reflexivity. Qed.

Lemma start_trace {A : Type} up (c : Coro A) :
  trace up c = issued (start c) ++ slot_trace up (start c).
Proof. destruct c; reflexivity. Qed.

Lemma tracks_start {A : Type} up log (c : Coro A) :
  incl (issued (start c)) log -> tracks up log c (start c).
Proof.
  intros Hin; split.
  - apply start_outcome.
  - exists (issued (start c)); split; [apply start_trace | exact Hin].
Qed.

Lemma tracks_mono {A : Type} up log log' (c : Coro A) s :
  tracks up log c s -> incl log log' -> tracks up log' c s.
Proof.
  intros [Ho (past & Ht & Hp)] Hincl; split; [exact Ho |].
  exists past; split; [exact Ht |].
  intros x Hx; auto.
Qed.

Lemma tracks_resume {A : Type} up log (c : Coro A) rq k :
  tracks up log c (Pending rq k) ->
  tracks up (log ++ issued (start (k (up rq)))) c (start (k (up rq))).
Proof.
  intros [Ho (past & Ht & Hp)]; split.
  - rewrite start_outcome. exact Ho.
  - exists (past ++ issued (start (k (up rq)))); split.
    + rewrite Ht. simpl. rewrite (start_trace up (k (up rq))) at 1.
      now rewrite app_assoc.
    + apply incl_app; [apply incl_appl; exact Hp | apply incl_appr, incl_refl].
Qed.

Lemma tracks_in_trace {A : Type} up log (c : Coro A) s rq :
  tracks up log c s -> In rq (slot_trace up s) -> In rq (trace up c).
Proof.
  intros [_ (past & Ht & _)] Hin. rewrite Ht. apply in_or_app; now right.
Qed.

Lemma Forall2_tracks_mono {A : Type} up log log' (tasks : list (Coro A)) slots :
  Forall2 (tracks up log) tasks slots -> incl log log' ->
  Forall2 (tracks up log') tasks slots.
Proof.
  intros H Hincl; induction H; constructor; eauto using tracks_mono.
Qed.

Lemma Forall2_nth_error_r {A B : Type} (R : A -> B -> Prop) l1 l2 i b :
  Forall2 R l1 l2 -> nth_error l2 i = Some b ->
  exists a, nth_error l1 i = Some a /\ R a b.
Proof.
  intros H; revert i; induction H as [| x y l1 l2 Hxy H IH]; intros [| i] Hi;
    simpl in *; try discriminate.
  - injection Hi as <-. eauto.
  - auto.
Qed.

Lemma Forall2_set_nth {A B : Type} (R : A -> B -> Prop) l1 l2 i a b :
  Forall2 R l1 l2 -> nth_error l1 i = Some a -> R a b ->
  Forall2 R l1 (set_nth i b l2).
Proof.
  intros H; revert i; induction H as [| x y l1 l2 Hxy H IH]; intros [| i] Hi Hab;
    simpl in *; try discriminate.
  - injection Hi as <-. constructor; auto.
  - constructor; auto.
Qed.

Lemma first_failed_set_nth {A : Type} (slots : list (Slot A)) i s :
  first_failed slots = None -> (forall e, s <> Failed e) ->
  first_failed (set_nth i s slots) = None.
Proof.
  revert i; induction slots as [| s0 slots IH]; intros i Hnone Hs; simpl; auto.
  destruct i as [| i]; simpl.
  - destruct s; [| | exfalso; eapply Hs; reflexivity];
      destruct s0; simpl in Hnone; auto; discriminate.
  - destruct s0; simpl in *; auto; discriminate.
Qed.

Lemma of_tasks_cons {A : Type} up (c : Coro A) tasks rq :
  of_tasks up tasks rq -> of_tasks up (c :: tasks) rq.
Proof. intros (c' & Hc & Hrq); exists c'; split; [now right | exact Hrq]. Qed.

Lemma extends_refl {A : Type} up (tasks : list (Coro A)) log :
  extends up tasks log log.
Proof. exists []; split; [now rewrite app_nil_r | constructor]. Qed.

Lemma extends_trans {A : Type} up (tasks : list (Coro A)) log1 log2 log3 :
  extends up tasks log1 log2 -> extends up tasks log2 log3 ->
  extends up tasks log1 log3.
Proof.
  intros (x1 & -> & H1) (x2 & -> & H2). exists (x1 ++ x2); split.
  - now rewrite app_assoc.
  - apply Forall_app; auto.
Qed.

Lemma extends_incl {A : Type} up (tasks : list (Coro A)) log log' :
  extends up tasks log log' -> incl log log'.
Proof. intros (x & -> & _). apply incl_appl, incl_refl. Qed.

Lemma extends_cons {A : Type} up (c : Coro A) tasks log log' :
  extends up tasks log log' -> extends up (c :: tasks) log log'.
Proof.
  intros (x & -> & H). exists x; split; [reflexivity |].
  eapply Forall_impl; [| exact H]. intros rq; apply of_tasks_cons.
Qed.

Lemma failed_task_mono {A : Type} up (tasks : list (Coro A)) log log' e :
  failed_task up tasks log e -> incl log log' -> failed_task up tasks log' e.
Proof.
  intros (c & Hc & Ho & Ht) Hincl. exists c; repeat split; auto.
  intros x Hx; auto.
Qed.

Lemma complete_spec {A : Type} up order :
  forall (tasks : list (Coro A)) slots log r log',
    Forall2 (tracks up log) tasks slots ->
    complete up order slots log = (r, log') ->
    extends up tasks log log' /\
    match r with
    | Ok slots' =>
        Forall2 (tracks up log') tasks slots' /\
        (first_failed slots = None -> first_failed slots' = None)
    | Err e => failed_task up tasks log' e
    end.
Proof.
  induction order as [| i order IH]; intros tasks slots log r log' Htr Hrun; simpl in Hrun.
  - injection Hrun as <- <-. split; [apply extends_refl | auto].
  - destruct (nth_error slots i) as [[rq k | a | e] |] eqn:Hi; eauto.
    destruct (Forall2_nth_error_r _ _ _ _ _ Htr Hi) as (c & Hc & Hcs).
    pose proof (tracks_resume _ _ _ _ _ Hcs) as Hres.
    assert (Hin : In c tasks) by (eapply nth_error_In; eauto).
    destruct (start (k (up rq))) as [rq' k' | a | e] eqn:Hs.
    + assert (Hext : extends up tasks log (log ++ [rq'])).
      { exists [rq']; split; [reflexivity |]. constructor; [| constructor].
        exists c; split; [exact Hin |].
        eapply tracks_in_trace; [exact Hcs |]. simpl.
        rewrite (start_trace up (k (up rq))), Hs. now left. }
      simpl in Hrun, Hres.
      eapply IH in Hrun.
      * destruct Hrun as [Hext' Hr]. split; [eapply extends_trans; eauto |].
        destruct r as [slots' | e]; [| exact Hr].
        destruct Hr as [Hr Hff]; split; [exact Hr |].
        intros Hnone. apply Hff, first_failed_set_nth; [exact Hnone | discriminate].
      * eapply Forall2_set_nth; [| exact Hc | exact Hres].
        eapply Forall2_tracks_mono; [exact Htr | apply incl_appl, incl_refl].
    + simpl in Hrun, Hres. rewrite app_nil_r in Hrun, Hres.
      eapply IH in Hrun.
      * destruct Hrun as [Hext' Hr]. split; [exact Hext' |].
        destruct r as [slots' | e]; [| exact Hr].
        destruct Hr as [Hr Hff]; split; [exact Hr |].
        intros Hnone. apply Hff, first_failed_set_nth; [exact Hnone | discriminate].
      * eapply Forall2_set_nth; [exact Htr | exact Hc | exact Hres].
    + injection Hrun as <- <-. split; [apply extends_refl |].
      exists c; repeat split; [exact Hin | |].
      * destruct Hcs as [Ho _]. rewrite <- Ho. simpl.
        rewrite <- (start_outcome up (k (up rq))), Hs. reflexivity.
      * destruct Hcs as [_ (past & Ht & Hp)]. rewrite Ht. simpl.
        rewrite (start_trace up (k (up rq))), Hs. simpl. now rewrite app_nil_r.
Qed.

Lemma failed_task_cons {A : Type} up (c : Coro A) tasks log e :
  failed_task up tasks log e -> failed_task up (c :: tasks) log e.
Proof. intros (c' & Hc & H); exists c'; split; [now right | exact H]. Qed.

Lemma drain_spec {A : Type} env :
  forall (tasks : list (Coro A)) slots,
    forall log r log',
    Forall2 (tracks (upstream env) log) tasks slots ->
    drain slots env log = (r, log') ->
    extends (upstream env) tasks log log' /\
    match r with
    | Ok bs => Forall2 (fun c b => outcome (upstream env) c = Ok b) tasks bs
    | Err e => failed_task (upstream env) tasks log' e
    end.
Proof.
  set (up := upstream env).
  intros tasks slots log r log' Htr; revert log Htr r log'.
  induction slots as [| s slots IH] in tasks |- *; intros log Htr r log' Hrun;
    inversion Htr as [| c s0 tasks' slots0 Hcs Htr' E1 E2]; subst.
  - injection Hrun as <- <-. split; [apply extends_refl | constructor].
  - destruct s as [rq k | a | e]; simpl in Hrun.
    + unfold mbind in Hrun. rewrite await_spec in Hrun. fold up in Hrun.
      assert (Hext : extends up (c :: tasks') log (log ++ trace up (k (up rq)))).
      { exists (trace up (k (up rq))); split; [reflexivity |].
        apply Forall_forall; intros x Hx. exists c; split; [now left |].
        eapply tracks_in_trace; eauto. }
      destruct Hcs as [Ho (past & Ht & Hp)]; simpl in Ho, Ht.
      destruct (outcome up (k (up rq))) as [a | e] eqn:Hk.
      * destruct (drain slots env (log ++ trace up (k (up rq)))) as [r0 log0] eqn:Hd.
        eapply IH in Hd;
          [| eapply Forall2_tracks_mono; [exact Htr' | apply incl_appl, incl_refl]].
        destruct Hd as [Hext' Hr].
        destruct r0 as [l | e]; injection Hrun as <- <-.
        -- split; [eapply extends_trans; [exact Hext | apply extends_cons, Hext'] |].
           constructor; auto.
        -- split; [eapply extends_trans; [exact Hext | apply extends_cons, Hext'] |].
           apply failed_task_cons, Hr.
      * injection Hrun as <- <-. split; [exact Hext |].
        exists c; repeat split; [now left | now symmetry |].
        rewrite Ht. apply incl_app; [apply incl_appl, Hp | apply incl_appr, incl_refl].
    + unfold mbind in Hrun.
      destruct (drain slots env log) as [r0 log0] eqn:Hd.
      eapply IH in Hd; [| exact Htr'].
      destruct Hd as [Hext' Hr]. destruct Hcs as [Ho _]; simpl in Ho.
      destruct r0 as [l | e]; injection Hrun as <- <-.
      * split; [apply extends_cons, Hext' |]. constructor; auto.
      * split; [apply extends_cons, Hext' |]. apply failed_task_cons, Hr.
    + injection Hrun as <- <-. split; [apply extends_refl |].
      destruct Hcs as [Ho (past & Ht & Hp)]; simpl in Ho, Ht.
      exists c; repeat split; [now left | now symmetry |].
      rewrite Ht, app_nil_r. exact Hp.
Qed.

Lemma first_failed_some {A : Type} (tasks : list (Coro A)) e :
  first_failed (map start tasks) = Some e -> In (Raise e) tasks.
Proof.
  induction tasks as [| c tasks IH]; simpl; [discriminate |].
  destruct c as [a | e' | rq k]; simpl; auto.
  intros [= ->]. now left.
Qed.

Lemma launch_extends {A : Type} up (tasks : list (Coro A)) log :
  extends up tasks log (log ++ List.concat (map issued (map start tasks))) /\
  Forall2 (tracks up (log ++ List.concat (map issued (map start tasks))))
          tasks (map start tasks).
Proof.
  split.
  - eexists; split; [reflexivity |].
    apply Forall_forall; intros rq Hrq.
    apply in_concat in Hrq. destruct Hrq as (l & Hl & Hrq).
    rewrite map_map in Hl. apply in_map_iff in Hl. destruct Hl as (c & <- & Hc).
    exists c; split; [exact Hc |].
    rewrite (start_trace up c). apply in_or_app; now left.
  - assert (H : forall c, In c tasks ->
                incl (issued (start c))
                     (log ++ List.concat (map issued (map start tasks)))).
    { intros c Hc rq Hrq. apply in_or_app; right.
      apply in_concat. exists (issued (start c)); split; [| exact Hrq].
      rewrite map_map. apply in_map_iff. now exists c. }
    revert H. generalize (log ++ List.concat (map issued (map start tasks))).
    intros L H. induction tasks as [| c tasks IH]; simpl; constructor.
    + apply tracks_start, H. now left.
    + apply IH. intros c' Hc'. apply H. now right.
Qed.

(** What a [gather] does, whatever the completion order: the log grows by
    requests of the tasks; a list of results is the tasks' own results in the
    order of the tasks; an exception is the exception of one of the tasks,
    whose requests have all been issued. *)
Lemma gather_spec {A : Type} (tasks : list (Coro A)) env log r log' :
  gather tasks env log = (r, log') ->
  extends (upstream env) tasks log log' /\
  match r with
  | Ok bs => Forall2 (fun c b => outcome (upstream env) c = Ok b) tasks bs
  | Err e => failed_task (upstream env) tasks log' e
  end.
Proof.
  unfold gather. intros Hrun.
  destruct (launch_extends (upstream env) tasks log) as [Hext0 Htr0].
  destruct (first_failed (map start tasks)) as [e |] eqn:Hff.
  - injection Hrun as <- <-. split; [exact Hext0 |].
    exists (Raise e); repeat split; [now apply first_failed_some | ].
    simpl. intros x [].
  - destruct (complete _ _ _ _) as [[slots' | e] log2] eqn:Hc.
    + apply complete_spec with (tasks := tasks) in Hc; [| exact Htr0].
      destruct Hc as [Hext1 [Htr1 _]].
      apply drain_spec with (tasks := tasks) in Hrun; [| exact Htr1].
      destruct Hrun as [Hext2 Hr]. split; [| exact Hr].
      eauto using extends_trans.
    + injection Hrun as <- <-.
      apply complete_spec with (tasks := tasks) in Hc; [| exact Htr0].
      destruct Hc as [Hext1 Hr]. split; [| exact Hr].
      eauto using extends_trans.
Qed.

Lemma Forall2_outcome_fun {A : Type} up (tasks : list (Coro A)) bs bs' :
  Forall2 (fun c b => outcome up c = Ok b) tasks bs ->
  Forall2 (fun c b => outcome up c = Ok b) tasks bs' -> bs = bs'.
Proof.
  intros H; revert bs'; induction H as [| c b tasks bs Hc H IH]; intros bs' H';
    inversion H'; subst; [reflexivity |].
  f_equal; [congruence | auto].
Qed.

(** [gather] returns a list exactly when every task, run alone, returns; the
    list is then that of their results, in the order of the tasks. *)
Lemma gather_ok_iff {A : Type} (tasks : list (Coro A)) env log bs :
  fst (gather tasks env log) = Ok bs <->
  Forall2 (fun c b => outcome (upstream env) c = Ok b) tasks bs.
Proof.
  destruct (gather tasks env log) as [r log'] eqn:Hrun.
  apply gather_spec in Hrun. destruct Hrun as [_ Hr]. simpl. split.
  - intros ->. exact Hr.
  - intros Hall. destruct r as [bs' | e].
    + f_equal. eapply Forall2_outcome_fun; eauto.
    + destruct Hr as (c & Hc & Ho & _). exfalso.
      clear - Hall Hc Ho. induction Hall as [| c0 b tasks bs H0 Hall IH];
        [contradiction |].
      destruct Hc as [-> | Hc]; [congruence | auto].
Qed.

(** ** The coroutines of [app.py], run alone *)

Section Pipeline.

Context {markup : Markup}.
Variable up : Request -> GetOutcome.

Lemma fetch_page_trace url params headers :
  trace up (fetch_page url params headers) = [mkRequest url params headers 10].
Proof.
  unfold fetch_page; simpl.
  destruct (up _) as [response | [| | name]]; reflexivity.
Qed.

Lemma fetch_page_responded url params headers response :
  up (mkRequest url params headers 10) = Responded response ->
  outcome up (fetch_page url params headers) = Ok (text response).
Proof. intros H; unfold fetch_page; simpl. now rewrite H. Qed.

Lemma fetch_page_raised url params headers e0 :
  up (mkRequest url params headers 10) = Raised e0 ->
  exists e, outcome up (fetch_page url params headers) = Err e.
Proof.
  intros H; unfold fetch_page; simpl. rewrite H.
  destruct e0; eexists; reflexivity.
Qed.

Lemma fetch_page_ok url params headers html :
  outcome up (fetch_page url params headers) = Ok html ->
  exists response,
    up (mkRequest url params headers 10) = Responded response /\
    html = text response.
Proof.
  unfold fetch_page; simpl.
  destruct (up _) as [response | [| | name]]; simpl; try discriminate.
  intros [= <-]. eauto.
Qed.

Lemma parse_content_trace url :
  trace up (parse_content url) = [article_request url].
Proof.
  unfold parse_content. rewrite trace_bind, fetch_page_trace.
  destruct (outcome up (fetch_page url [] [])); reflexivity.
Qed.




(** A stub either lacks a required element or attribute, and [parse_item]
    raises before any request, or has them, and [parse_item] goes on to
    resolve the content of its link. *)
Lemma parse_item_shape (result : Node) :
  (exists e, malformed e /\ parse_item result = Raise e) \/
  (exists t d u,
      css_first result "h3.media__title" = Some t /\
      attr_of (css_first result ".media__date > span") "title" = Return d /\
      attr_of (css_first result "a") "href" = Return u /\
      parse_item result =
      (content <- parse_content u ;;
       Return {| title := PyStr.strip (node_text t);
                 url := u;
                 date := d;
                 desc := PyStr.strip
                           match css_first result "div.media__desc" with
                           | Some x => node_text x
                           | None => "No description"
                           end;
                 content := content |})).
Proof.
  unfold parse_item, malformed.
  destruct (css_first result "h3.media__title") as [t |]; simpl;
    [| left; eauto].
  unfold attr_of at 1.
  destruct (css_first result ".media__date > span") as [dn |]; simpl;
    [| left; eauto].
  destruct (lookup "title" (attrs dn)) as [d |]; simpl; [| left; eauto].
  unfold attr_of at 1.
  destruct (css_first result "a") as [an |]; simpl; [| left; eauto].
  destruct (lookup "href" (attrs an)) as [u |]; simpl; [| left; eauto].
  right. exists t, d, u. repeat split; reflexivity.
Qed.

Lemma parse_item_trace result rq :
  In rq (trace up (parse_item result)) -> exists u, rq = article_request u.
Proof.
  destruct (parse_item_shape result) as [(e & _ & ->) | (t & d & u & _ & _ & _ & ->)].
  - intros [].
  - rewrite trace_bind, parse_content_trace.
    destruct (outcome up (parse_content u)); simpl; intros [<- | []]; eauto.
Qed.



End Pipeline.

(** ** The listing parser *)

Section Listing.

Context {markup : Markup}.

Lemma parse_unfold env url params headers log :
  parse url params headers env log =
  match outcome (upstream env) (fetch_page url params headers) with
  | Ok html =>
      if negb (PyStr.truthy html) then (Ok [], log ++ [mkRequest url params headers 10])
      else gather (map parse_item (stubs_of html)) env
                  (log ++ [mkRequest url params headers 10])
  | Err e => (Err e, log ++ [mkRequest url params headers 10])
  end.
Proof.
  unfold parse, mbind. rewrite await_spec, fetch_page_trace.
  destruct (outcome _ _) as [html | e]; [| reflexivity].
  destruct (negb (PyStr.truthy html)); reflexivity.
Qed.

Lemma Forall2_map_l {A B C : Type} (f : A -> B) (R : B -> C -> Prop) l l' :
  Forall2 R (map f l) l' <-> Forall2 (fun a c => R (f a) c) l l'.
Proof.
  split.
  - revert l'; induction l as [| a l IH]; intros l' H; inversion H; subst;
      constructor; auto.
  - intros H; induction H; simpl; constructor; auto.
Qed.

(** The result of [parse], whatever the log it starts from and the order in
    which the content resolutions complete. *)
Lemma parse_ok_iff env url params headers log items :
  fst (parse url params headers env log) = Ok items <->
  exists response,
    upstream env (mkRequest url params headers 10) = Responded response /\
    if PyStr.truthy (text response)
    then Forall2 (fun result item => record_of env result = Ok item)
                 (stubs_of (text response)) items
    else items = [].
Proof.
  rewrite parse_unfold. split.
  - destruct (outcome _ (fetch_page _ _ _)) as [html | e] eqn:Hf; [| discriminate].
    apply fetch_page_ok in Hf. destruct Hf as (response & Hup & ->).
    intros H. exists response; split; [exact Hup |].
    destruct (PyStr.truthy (text response)); simpl in H.
    + apply gather_ok_iff in H. now apply Forall2_map_l in H.
    + now injection H as <-.
  - intros (response & Hup & H).
    rewrite (fetch_page_responded _ _ _ _ _ Hup).
    destruct (PyStr.truthy (text response)); simpl.
    + apply gather_ok_iff. now apply Forall2_map_l.
    + now subst.
Qed.

(** The log of [parse]: the listing fetch, then article fetches. *)
Lemma parse_log env url params headers log :
  exists extra,
    snd (parse url params headers env log) =
      log ++ mkRequest url params headers 10 :: extra /\
    Forall (fun rq => exists u, rq = article_request u) extra.
Proof.
  rewrite parse_unfold.
  destruct (outcome _ (fetch_page _ _ _)) as [html | e];
    [| exists []; split; [reflexivity | constructor]].
  destruct (negb (PyStr.truthy html));
    [exists []; split; [reflexivity | constructor] |].
  destruct (gather _ _ _) as [r log'] eqn:Hg.
  apply gather_spec in Hg. destruct Hg as [(extra & -> & Hextra) _].
  exists extra; split; [simpl; now rewrite <- app_assoc |].
  eapply Forall_impl; [| exact Hextra].
  intros rq (c & Hc & Hrq). apply in_map_iff in Hc. destruct Hc as (st & <- & _).
  eapply parse_item_trace; eauto.
Qed.


End Listing.

(** ** [str.strip] *)

Lemma lstrip_starts_clean s : starts_clean (PyStr.lstrip s) = true.
Proof.
  induction s as [| c s IH]; [reflexivity |].
  cbn [PyStr.lstrip]. destruct (PyStr.isspace c) eqn:Hc; [exact IH |].
  cbn [starts_clean]. now rewrite Hc.
Qed.

Lemma rstrip_starts_clean s :
  starts_clean s = true -> starts_clean (PyStr.rstrip s) = true.
Proof.
  destruct s as [| c s]; [reflexivity |].
  cbn [starts_clean PyStr.rstrip]. intros Hc.
  destruct (PyStr.rstrip s); [| exact Hc].
  destruct (PyStr.isspace c) eqn:E; [discriminate |].
  cbn [starts_clean]. now rewrite E.
Qed.

Lemma rstrip_ends_clean s : ends_clean (PyStr.rstrip s) = true.
Proof.
  induction s as [| c s IH]; [reflexivity |].
  cbn [PyStr.rstrip]. destruct (PyStr.rstrip s) as [| c' r].
  - destruct (PyStr.isspace c) eqn:Hc; [reflexivity |].
    cbn [ends_clean]. now rewrite Hc.
  - exact IH.
Qed.

Lemma strip_trimmed s : trimmed (PyStr.strip s) = true.
Proof.
  unfold trimmed, PyStr.strip.
  now rewrite rstrip_starts_clean, rstrip_ends_clean by apply lstrip_starts_clean.
Qed.

Lemma lstrip_decompose s :
  exists lead, s = (lead ++ PyStr.lstrip s)%string /\ blank lead = true.
Proof.
  induction s as [| c s (lead & Hs & Hlead)].
  - exists EmptyString. split; reflexivity.
  - cbn [PyStr.lstrip]. destruct (PyStr.isspace c) eqn:Hc.
    + exists (String c lead). split; [simpl; now rewrite <- Hs |].
      cbn [blank]. now rewrite Hc, Hlead.
    + exists EmptyString. split; reflexivity.
Qed.

Lemma rstrip_decompose s :
  exists trail, s = (PyStr.rstrip s ++ trail)%string /\ blank trail = true.
Proof.
  induction s as [| c s (trail & Hs & Htrail)].
  - exists EmptyString. split; reflexivity.
  - cbn [PyStr.rstrip]. destruct (PyStr.rstrip s) as [| c' r].
    + simpl in Hs. subst trail. destruct (PyStr.isspace c) eqn:Hc.
      * exists (String c s). split; [reflexivity |].
        cbn [blank]. now rewrite Hc, Htrail.
      * exists s. split; [reflexivity | exact Htrail].
    + exists trail. split; [rewrite Hs at 1; reflexivity | exact Htrail].
Qed.

(** What [strip] gives is the string without the white space around it. *)
Lemma strip_decompose s :
  exists lead trail,
    s = (lead ++ PyStr.strip s ++ trail)%string /\
    blank lead = true /\ blank trail = true.
Proof.
  destruct (lstrip_decompose s) as (lead & Hs & Hlead).
  destruct (rstrip_decompose (PyStr.lstrip s)) as (trail & Ht & Htrail).
  exists lead, trail. unfold PyStr.strip.
  split; [now rewrite <- Ht | split; assumption].
Qed.

Lemma join_newline_separated t rest :
  PyStr.join PyStr.LF (t :: rest) = newline_separated t rest.
Proof.
  revert t; induction rest as [| t' rest IH]; intros t; [reflexivity |].
  change (PyStr.join PyStr.LF (t :: t' :: rest))
    with (t ++ PyStr.LF ++ PyStr.join PyStr.LF (t' :: rest))%string.
  rewrite IH. reflexivity.
Qed.

(** ** The page fetcher *)

(** C1.  The spec has [fetch_page] fail with the status code and the URL when
    the upstream answers with a non-success status.  The code does not: the
    [client.get] of httpx returns the response whatever its status, the
    handler of [HTTPStatusError] is never entered, and the body is returned
    as text.  Here the site answers 404 for an unknown article. *)
Theorem fetch_page_returns_body_on_404 :
  let url := "https://news.detik.com/missing" in
  Fixture.site (mkRequest url [] [] 10) = Responded (mkResponse 404 "Not Found" None) /\
  success 404 = false /\
  await (fetch_page url [] []) Fixture.in_order [] =
    (Ok "Not Found", [mkRequest url [] [] 10]).
Proof. repeat split. Qed.

(** ** The listing parser: order, empty pages, descriptions *)

Section ListingClaims.

Context {markup : Markup}.

(** C4.  When the listing fetch is answered with a non-empty page, [parse]
    returns a list exactly when every stub yields a record, and the list is
    then, position by position, the records of the stubs in document order:
    this for every order [order] in which the content resolutions
    complete. *)
Theorem parse_preserves_stub_order up order url params headers log response :
  up (mkRequest url params headers 10) = Responded response ->
  PyStr.truthy (text response) = true ->
  forall items,
    (fst (parse url params headers (mkEnv up order) log) = Ok items <->
     Forall2 (fun result item => record_of (mkEnv up order) result = Ok item)
             (stubs_of (text response)) items) /\
    (fst (parse url params headers (mkEnv up order) log) = Ok items ->
     List.length items = List.length (stubs_of (text response)) /\
     forall i result,
       nth_error (stubs_of (text response)) i = Some result ->
       exists item,
         nth_error items i = Some item /\
         outcome up (parse_item result) = Ok item).
Proof.
  intros Hup Htext items.
  assert (Hiff : fst (parse url params headers (mkEnv up order) log) = Ok items <->
                 Forall2 (fun result item => record_of (mkEnv up order) result = Ok item)
                         (stubs_of (text response)) items).
  { rewrite parse_ok_iff. simpl upstream. split.
    - intros (response' & Hup' & H). rewrite Hup in Hup'.
      injection Hup' as <-. now rewrite Htext in H.
    - intros H. exists response. rewrite Htext. auto. }
  split; [exact Hiff |].
  intros Hok. apply Hiff in Hok. clear Hiff.
  induction Hok as [| result item stubs items Hr Hok IH]; split; auto.
  - intros [| i] ?; discriminate.
  - simpl. f_equal. apply IH.
  - intros [| i] result' Hi; simpl in Hi.
    + injection Hi as <-. exists item; split; [reflexivity | exact Hr].
    + destruct IH as [_ IH]. apply (IH i result' Hi).
Qed.

Lemma complete_nil {A : Type} up order log :
  @complete A up order [] log = (Ok [], log).
Proof.
  induction order as [| i order IH]; simpl; [reflexivity |].
  destruct i; simpl; exact IH.
Qed.

Lemma gather_nil {A : Type} env log :
  @gather A [] env log = (Ok [], log).
Proof. unfold gather; simpl. rewrite app_nil_r, complete_nil. reflexivity. Qed.

(** C6.  A listing fetch answered with an empty body, or with a page that
    has no article stub, makes [parse] return the empty list; the listing
    fetch is the only request. *)
Theorem parse_empty_listing env url params headers log response :
  upstream env (mkRequest url params headers 10) = Responded response ->
  text response = "" \/ stubs_of (text response) = [] ->
  parse url params headers env log =
    (Ok [], log ++ [mkRequest url params headers 10]).
Proof.
  intros Hup Hempty. rewrite parse_unfold, (fetch_page_responded _ _ _ _ _ Hup).
  destruct Hempty as [-> | Hstubs]; [reflexivity |].
  destruct (negb (PyStr.truthy (text response))); [reflexivity |].
  rewrite Hstubs. apply gather_nil.
Qed.

(** C7.  When the article fetch is answered, [parse_content] returns the
    sentinel if the page has no paragraph under the body container, and
    otherwise the texts of the paragraphs in document order, one line feed
    between each and the next. *)
Theorem parse_content_sentinel_or_join up url response :
  up (article_request url) = Responded response ->
  (paragraphs_of (text response) = [] ->
   outcome up (parse_content url) = Ok "No content available.") /\
  (forall p ps,
      paragraphs_of (text response) = p :: ps ->
      outcome up (parse_content url) =
        Ok (newline_separated (node_text p) (map node_text ps))).
Proof.
  intros Hup. unfold parse_content. rewrite outcome_bind.
  rewrite (fetch_page_responded _ _ _ _ _ Hup). fold (paragraphs_of (text response)).
  split.
  - intros H. now rewrite H.
  - intros p ps H. rewrite H. cbn [map outcome].
    now rewrite join_newline_separated.
Qed.

(** C9.  The record [parse_item] builds from a stub has ["No description"]
    for [desc] when the stub has no description element; when it has one,
    [desc] is the text of that element without the white space at its start
    and at its end: the text is [desc] between two runs of white space, and
    [desc] neither starts nor ends with white space. *)
Theorem parse_item_desc up result item :
  outcome up (parse_item result) = Ok item ->
  (css_first result "div.media__desc" = None -> desc item = "No description") /\
  (forall d,
      css_first result "div.media__desc" = Some d ->
      desc item = PyStr.strip (node_text d) /\
      trimmed (desc item) = true /\
      exists lead trail,
        node_text d = (lead ++ desc item ++ trail)%string /\
        blank lead = true /\ blank trail = true).
Proof.
  destruct (parse_item_shape result) as [(e & _ & ->) | (t & dt & u & _ & _ & _ & ->)];
    [discriminate |].
  rewrite outcome_bind.
  destruct (outcome up (parse_content u)) as [c |]; [| discriminate].
  simpl. intros [= <-]. simpl. split.
  - intros ->. reflexivity.
  - intros d ->. split; [reflexivity |]. split; [apply strip_trimmed |].
    apply strip_decompose.
Qed.

End ListingClaims.

(** ** The pagination loop *)

Lemma range_from_1 pages :
  PyStr.range 1 (pages + 1) = map Z.of_nat (seq 1 (Z.to_nat pages)).
Proof.
  unfold PyStr.range. replace (pages + 1 - 1) with pages by lia.
  rewrite <- seq_shift, map_map. apply map_ext. intros i. lia.
Qed.

Lemma in_range_from_1 pages page :
  In page (PyStr.range 1 (pages + 1)) -> 1 <= page <= pages.
Proof.
  rewrite range_from_1. intros H. apply in_map_iff in H.
  destruct H as (i & <- & Hi). apply in_seq in Hi. lia.
Qed.

Lemma is_listing_listing_request keyword page :
  is_listing (listing_request keyword page) = true.
Proof. reflexivity. Qed.

Lemma filter_listing_articles extra :
  Forall (fun rq => exists u, rq = article_request u) extra ->
  filter is_listing extra = [].
Proof.
  induction 1 as [| rq extra (u & ->) _ IH]; [reflexivity | exact IH].
Qed.

Section Pagination.

Context {markup : Markup}.
Variable env : Env.
Variable keyword : string.

Lemma parse_page_records log page items :
  fst (parse search_url (page_params keyword page) user_agent env log) = Ok items <->
  page_records env keyword page = Ok items.
Proof. unfold page_records. rewrite !parse_ok_iff. reflexivity. Qed.

Lemma parse_page_listing log page :
  filter is_listing
    (snd (parse search_url (page_params keyword page) user_agent env log)) =
  filter is_listing log ++ [listing_request keyword page].
Proof.
  destruct (parse_log env search_url (page_params keyword page) user_agent log)
    as (extra & -> & Hextra).
  rewrite filter_app. f_equal.
  change (mkRequest search_url (page_params keyword page) user_agent 10)
    with (listing_request keyword page).
  simpl. now rewrite filter_listing_articles.
Qed.

(** The loop of [scrape]: which listing fetches it issues and what it
    returns. *)
Lemma scrape_loop_spec pages :
  forall all_items log r log',
    scrape_loop keyword pages all_items env log = (r, log') ->
    (forall items, r = Ok items ->
       filter is_listing log' =
         filter is_listing log ++ map (listing_request keyword) pages /\
       exists segments,
         Forall2 (fun page segment => page_records env keyword page = Ok segment)
                 pages segments /\
         items = all_items ++ List.concat segments) /\
    ((forall page, In page pages ->
        exists segment, page_records env keyword page = Ok segment) ->
     exists items, r = Ok items) /\
    (exists n, filter is_listing log' =
               filter is_listing log ++ map (listing_request keyword) (firstn n pages)).
Proof.
  induction pages as [| page pages IH]; intros all_items log r log' Hrun;
    simpl in Hrun.
  - injection Hrun as <- <-. repeat split.
    + now rewrite app_nil_r.
    + injection H as <-. exists []; split; [constructor | now rewrite app_nil_r].
    + eauto.
    + exists O. now rewrite app_nil_r.
  - unfold mbind in Hrun.
    pose proof (parse_page_listing log page) as Hlog.
    pose proof (parse_page_records log page) as Hrec.
    destruct (parse search_url (page_params keyword page) user_agent env log)
      as [[items1 | e] log1]; simpl in Hlog, Hrec.
    + apply IH in Hrun. destruct Hrun as (Hok & Htotal & n & Hn).
      rewrite Hlog, <- app_assoc in Hn. repeat split.
      * destruct (Hok items H) as [Hl _]. now rewrite Hl, Hlog, <- app_assoc.
      * destruct (Hok items H) as [_ (segments & Hseg & ->)].
        exists (items1 :: segments); split.
        -- constructor; [now apply Hrec | exact Hseg].
        -- simpl. now rewrite app_assoc.
      * intros Hall. apply Htotal. intros p Hp. apply Hall. now right.
      * exists (S n). exact Hn.
    + injection Hrun as <- <-. repeat split; try discriminate.
      * intros Hall. destruct (Hall page) as (segment & Hseg); [now left |].
        apply Hrec in Hseg. discriminate.
      * exists 1%nat. simpl. rewrite ?firstn_O. exact Hlog.
Qed.


(** The loop of [scrape]: the requests it issues. *)
Lemma scrape_loop_log pages :
  forall all_items log,
  exists extra,
    snd (scrape_loop keyword pages all_items env log) = log ++ extra /\
    Forall (fun rq =>
              (exists page, In page pages /\ rq = listing_request keyword page) \/
              (exists u, rq = article_request u)) extra.
Proof.
  induction pages as [| page pages IH]; intros all_items log; simpl.
  - exists []; split; [now rewrite app_nil_r | constructor].
  - unfold mbind.
    destruct (parse_log env search_url (page_params keyword page) user_agent log)
      as (extra1 & Hlog1 & Hextra1).
    destruct (parse search_url (page_params keyword page) user_agent env log)
      as [[items1 | e] log1]; simpl in Hlog1; subst log1.
    + destruct (IH (all_items ++ items1)
                   (log ++ mkRequest search_url (page_params keyword page) user_agent 10
                        :: extra1)) as (extra2 & -> & Hextra2).
      exists ((listing_request keyword page :: extra1) ++ extra2); split;
        [now rewrite <- app_assoc |].
      apply Forall_app; split.
      * constructor; [left; exists page; split; [now left | reflexivity] |].
        eapply Forall_impl; [| exact Hextra1]. intros rq Hrq; now right.
      * eapply Forall_impl; [| exact Hextra2].
        intros rq [(p & Hp & ->) | Hrq]; [left; exists p; split; [now right | reflexivity] | now right].
    + exists (listing_request keyword page :: extra1); split; [reflexivity |].
      constructor; [left; exists page; split; [now left | reflexivity] |].
      eapply Forall_impl; [| exact Hextra1]. intros rq Hrq; now right.
Qed.

End Pagination.

(** ** The [/scrape] route *)

Section ScrapeClaims.

Context {markup : Markup}.

(** C2.  For a page count of at least 1, with [numbers] the page numbers
    1, 2, ..., [pages] and [fetch_of page] the fetch of the search URL with
    the parameters [query] = keyword and [page] = page: a [scrape] that
    returns has issued exactly the listing fetches [fetch_of 1], ...,
    [fetch_of pages], in that order, and returns the concatenation, in page
    order, of the records of the listing pages that answer them; it does
    return when every one of these pages has its records; and in any case
    the listing fetches issued are those of an initial run of the page
    numbers. *)
Theorem scrape_fetches_pages_in_order env keyword pages :
  1 <= pages ->
  forall r log,
    scrape keyword pages env [] = (r, log) ->
    let numbers := map Z.of_nat (seq 1 (Z.to_nat pages)) in
    let fetch_of page :=
      mkRequest "https://www.detik.com/search/searchall?"
                [("query", PStr keyword); ("page", PInt page)] user_agent 10 in
    (forall items, r = Ok items ->
       filter is_listing log = map fetch_of numbers /\
       List.length (filter is_listing log) = Z.to_nat pages /\
       exists segments,
         Forall2 (fun page segment => listing_records env (fetch_of page) segment)
                 numbers segments /\
         items = List.concat segments) /\
    ((forall page, In page numbers ->
        exists segment, listing_records env (fetch_of page) segment) ->
     exists items, r = Ok items) /\
    (exists n, filter is_listing log = map fetch_of (firstn n numbers)).
Proof.
  intros Hpages r log Hrun numbers fetch_of. unfold scrape in Hrun.
  destruct (pages <? 1) eqn:Hlt; [apply Z.ltb_lt in Hlt; lia |].
  rewrite range_from_1 in Hrun. fold numbers in Hrun.
  apply scrape_loop_spec in Hrun. destruct Hrun as (Hok & Htotal & Hprefix).
  change (listing_request keyword) with fetch_of in Hok, Hprefix.
  assert (Hrec : forall page segment,
             page_records env keyword page = Ok segment <->
             listing_records env (fetch_of page) segment).
  { intros page segment. unfold page_records, listing_records.
    rewrite parse_ok_iff. reflexivity. }
  repeat split.
  - now destruct (Hok items H) as [Hl _].
  - destruct (Hok items H) as [-> _]. simpl. unfold numbers.
    now rewrite !length_map, length_seq.
  - destruct (Hok items H) as [_ (segments & Hseg & ->)].
    exists segments. split; [| reflexivity].
    eapply Forall2_impl; [| exact Hseg]. intros page segment. apply Hrec.
  - intros Hall. apply Htotal. intros page Hin.
    destruct (Hall page Hin) as (segment & Hseg).
    exists segment. now apply Hrec.
  - exact Hprefix.
Qed.

(** C5, as amended.  Every request of a [scrape] is either the listing
    fetch of one of the pages asked for, which carries the client
    identifier, or an article fetch, which carries no header at all; the
    one request of [trending_keywords] carries the client identifier. *)
Theorem fetch_headers env keyword pages :
  Forall (fun rq =>
            (exists page, 1 <= page <= pages /\
                          rq = listing_request keyword page /\
                          rq_headers rq = user_agent) \/
            (exists u, rq = article_request u /\ rq_headers rq = []))
         (snd (scrape keyword pages env [])) /\
  snd (trending_keywords env []) = [mkRequest trending_url [] user_agent 10].
Proof.
  split.
  - unfold scrape. destruct (pages <? 1); [constructor |].
    destruct (scrape_loop_log env keyword (PyStr.range 1 (pages + 1)) [] [])
      as (extra & -> & H).
    simpl. eapply Forall_impl; [| exact H].
    intros rq [(page & Hp & ->) | (u & ->)].
    + left. exists page. repeat split; apply in_range_from_1 in Hp; lia.
    + right. exists u. split; reflexivity.
  - unfold trending_keywords. rewrite await_spec. simpl.
    unfold get_trending_keywords. simpl.
    destruct (upstream env _) as [response | [| | name]]; try reflexivity.
    destruct (json response) as [payload |]; [| reflexivity]. simpl.
    f_equal. f_equal.
    assert (Hfor : forall items,
               trace (upstream env)
                     (for_each (fun item => getitem item "keyword") items) = []).
    { induction items as [| item items IH]; [reflexivity |].
      simpl. rewrite trace_bind.
      replace (trace (upstream env) (getitem item "keyword")) with (@nil Request)
        by (destruct item; simpl; try reflexivity;
            destruct (lookup _ _); reflexivity).
      destruct (outcome _ (getitem item "keyword")); [| reflexivity].
      simpl. rewrite trace_bind, IH.
      destruct (outcome _ _); reflexivity. }
    destruct (negb (truthy payload)); [reflexivity |].
    destruct payload as [| b | n | s | l | o]; simpl; try reflexivity.
    + destruct (negb _); reflexivity.
    + destruct (negb _); reflexivity.
    + destruct (lookup "body" o) as [body |]; [| reflexivity]. simpl.
      destruct body as [| b | n | s | l | ob]; simpl; try reflexivity.
      * destruct (negb _); reflexivity.
      * destruct (negb _); reflexivity.
      * destruct (lookup "topKeywordSearch" ob) as [top |]; [| reflexivity].
        simpl. rewrite trace_bind.
        destruct top; simpl; auto.
Qed.

End ScrapeClaims.

(** C5, as stated, fails: the article fetches of a [scrape] carry no header. *)
Lemma article_fetch_has_no_client_identifier :
  ~ Forall (fun rq => rq_headers rq = user_agent)
           (snd (@scrape Fixture.canned_markup "banjir" 1 Fixture.in_order [])).
Proof.
  intros H. rewrite Forall_forall in H.
  specialize (H (article_request "https://news.detik.com/a1")).
  simpl in H. discriminate H. right; now left.
Qed.

(** ** The trending feed *)

Section Trending.

Variable up : Request -> GetOutcome.

Lemma fetch_json_responded url headers response payload :
  up (mkRequest url [] headers 10) = Responded response ->
  json response = Some payload ->
  outcome up (fetch_json url headers) = Ok payload.
Proof. intros Hup Hjson. unfold fetch_json; simpl. now rewrite Hup, Hjson. Qed.

Lemma lookup_some_truthy (o : list (string * JSON)) key v :
  lookup key o = Some v -> truthy (JObj o) = true.
Proof. destruct o; [discriminate | reflexivity]. Qed.

(** With the path present, what is left is the comprehension over the
    value of [topKeywordSearch]. *)
Lemma trending_entries url headers response o b top :
  up (mkRequest url [] headers 10) = Responded response ->
  json response = Some (JObj o) ->
  lookup "body" o = Some (JObj b) ->
  lookup "topKeywordSearch" b = Some top ->
  outcome up (get_trending_keywords url headers) =
  outcome up (items <- py_iter top ;;
              for_each (fun item => getitem item "keyword") items).
Proof.
  intros Hup Hjson Hbody Htop. unfold get_trending_keywords.
  rewrite outcome_bind, (fetch_json_responded _ _ _ _ Hup Hjson).
  rewrite (lookup_some_truthy _ _ _ Hbody). cbn [negb].
  unfold py_in at 1. rewrite Hbody. cbn [bind negb].
  unfold getitem at 1. rewrite Hbody. cbn [bind].
  unfold py_in at 1. rewrite Htop. cbn [bind negb].
  unfold getitem at 1. rewrite Hbody. cbn [bind].
  unfold getitem at 1. rewrite Htop. cbn [bind].
  reflexivity.
Qed.

Lemma keywords_all items values :
  Forall2 (fun item value =>
             exists o, item = JObj o /\ lookup "keyword" o = Some value)
          items values ->
  outcome up (for_each (fun item => getitem item "keyword") items) = Ok values.
Proof.
  induction 1 as [| item value items values (o & -> & Hk) _ IH]; [reflexivity |].
  cbn [for_each]. rewrite outcome_bind. unfold getitem at 1. rewrite Hk.
  cbn [outcome]. rewrite outcome_bind, IH. reflexivity.
Qed.

Lemma keywords_some_missing items :
  existsb (fun item => negb (has_keyword item)) items = true ->
  outcome up (for_each (fun item => getitem item "keyword") items) =
    Err (KeyError "keyword") \/
  outcome up (for_each (fun item => getitem item "keyword") items) = Err TypeError.
Proof.
  induction items as [| item items IH]; [discriminate |].
  cbn [existsb for_each]. rewrite outcome_bind. intros H.
  destruct (outcome up (getitem item "keyword")) as [v |] eqn:Hitem.
  - rewrite outcome_bind.
    assert (Hhas : has_keyword item = true).
    { destruct item as [| | | | | o]; try discriminate Hitem.
      simpl in *. destruct (lookup "keyword" o); [reflexivity | discriminate]. }
    rewrite Hhas in H. simpl in H.
    destruct (IH H) as [-> | ->]; auto.
  - destruct item as [| | | | | o]; simpl in Hitem;
      try (injection Hitem as <-; now right).
    destruct (lookup "keyword" o); [discriminate |].
    injection Hitem as <-. now left.
Qed.

(** X17.  The payload of the spec yields its two keywords in feed order, as
    does any object whose [body.topKeywordSearch] is a list of objects with
    a [keyword]; the result is the empty list when the payload is [None] or
    otherwise falsy, or is an object without [body], or is an object whose
    [body] is an object without [topKeywordSearch]. *)
Theorem trending_keywords_of_payload url headers response payload :
  up (mkRequest url [] headers 10) = Responded response ->
  json response = Some payload ->
  (payload = Fixture.payload_ab ->
   outcome up (get_trending_keywords url headers) = Ok [JStr "a"; JStr "b"]) /\
  (forall o b items values,
      payload = JObj o ->
      lookup "body" o = Some (JObj b) ->
      lookup "topKeywordSearch" b = Some (JArr items) ->
      Forall2 (fun item value =>
                 exists io, item = JObj io /\ lookup "keyword" io = Some value)
              items values ->
      outcome up (get_trending_keywords url headers) = Ok values) /\
  (truthy payload = false \/
   (exists o, payload = JObj o /\
              (lookup "body" o = None \/
               exists b, lookup "body" o = Some (JObj b) /\
                         lookup "topKeywordSearch" b = None)) ->
   outcome up (get_trending_keywords url headers) = Ok []).
Proof.
  intros Hup Hjson.
  assert (Hlist : forall o b items values,
             payload = JObj o ->
             lookup "body" o = Some (JObj b) ->
             lookup "topKeywordSearch" b = Some (JArr items) ->
             Forall2 (fun item value =>
                        exists io, item = JObj io /\ lookup "keyword" io = Some value)
                     items values ->
             outcome up (get_trending_keywords url headers) = Ok values).
  { intros o b items values -> Hbody Htop Hall.
    rewrite (trending_entries _ _ _ _ _ _ Hup Hjson Hbody Htop).
    cbn [py_iter bind]. now apply keywords_all. }
  split; [| split; [exact Hlist |]].
  - intros ->. eapply Hlist; [reflexivity | reflexivity | reflexivity |].
    repeat constructor; eexists; split; reflexivity.
  - unfold get_trending_keywords.
    rewrite outcome_bind, (fetch_json_responded _ _ _ _ Hup Hjson).
    intros [Hfalse | (o & -> & Ho)].
    + now rewrite Hfalse.
    + destruct (negb (truthy (JObj o))); [reflexivity |].
      unfold py_in at 1.
      destruct Ho as [Hbody | (b & Hbody & Htop)]; rewrite Hbody; [reflexivity |].
      cbn [bind negb]. unfold getitem at 1. rewrite Hbody. cbn [bind].
      unfold py_in at 1. rewrite Htop. reflexivity.
Qed.

(** C10.  When the payload has [body.topKeywordSearch] and that list has an
    entry without a [keyword] key, [get_trending_keywords] raises (a
    [KeyError], or a [TypeError] for an entry that is not an object): the
    entry is not skipped and no list is returned. *)
Theorem trending_keywords_malformed_entry url headers response o b items :
  up (mkRequest url [] headers 10) = Responded response ->
  json response = Some (JObj o) ->
  lookup "body" o = Some (JObj b) ->
  lookup "topKeywordSearch" b = Some (JArr items) ->
  existsb (fun item => negb (has_keyword item)) items = true ->
  exists e,
    outcome up (get_trending_keywords url headers) = Err e /\
    (e = KeyError "keyword" \/ e = TypeError).
Proof.
  intros Hup Hjson Hbody Htop Hbad.
  rewrite (trending_entries _ _ _ _ _ _ Hup Hjson Hbody Htop).
  cbn [py_iter bind].
  destruct (keywords_some_missing _ Hbad) as [-> | ->]; eauto.
Qed.

End Trending.

(** C8.  The spec has [get_trending_keywords] return the empty list for
    every payload without the path [body.topKeywordSearch].  The guard of
    the code does so when [body] is missing or is an object without the key,
    but not when [body] is [null]: the payload lacks the path, and the
    membership test on [None] raises a [TypeError]. *)
Theorem trending_keywords_null_body :
  has_path (JObj [("body", JNull)]) = false /\
  fst (trending_keywords (Fixture.feed (JObj [("body", JNull)])) []) = Err TypeError /\
  has_path (JObj [("body", JObj [])]) = false /\
  fst (trending_keywords (Fixture.feed (JObj [("body", JObj [])])) []) = Ok [] /\
  has_path (JObj []) = false /\
  fst (trending_keywords (Fixture.feed (JObj [])) []) = Ok [].
Proof. repeat split. Qed.

(** ** The claims on the test double *)

Section Witnesses.

Import Fixture.

(** Two pages of results: the listing fetches of page 1 and of page 2, and
    the records of page 1 before that of page 2. *)
Lemma scrape_fetches_pages_in_order_witness :
  1 <= 2 /\
  filter is_listing (snd (scrape "banjir" 2 in_order [])) =
    [mkRequest "https://www.detik.com/search/searchall?"
               [("query", PStr "banjir"); ("page", PInt 1)] user_agent 10;
     mkRequest "https://www.detik.com/search/searchall?"
               [("query", PStr "banjir"); ("page", PInt 2)] user_agent 10] /\
  exists segments,
    Forall2 (fun page segment =>
               listing_records in_order
                 (mkRequest "https://www.detik.com/search/searchall?"
                            [("query", PStr "banjir"); ("page", PInt page)]
                            user_agent 10) segment)
            [1; 2] segments /\
    fst (scrape "banjir" 2 in_order []) = Ok (List.concat segments) /\
    map url (List.concat segments) =
      ["https://news.detik.com/a1"; "https://news.detik.com/a2";
       "https://news.detik.com/a3"].
Proof.
  split; [lia |].
  destruct (scrape_fetches_pages_in_order in_order "banjir" 2 ltac:(lia)
              (fst (scrape "banjir" 2 in_order []))
              (snd (scrape "banjir" 2 in_order [])) (surjective_pairing _))
    as [Hok _].
  assert (Hrun : exists items,
             fst (scrape "banjir" 2 in_order []) = Ok items /\
             map url items =
               ["https://news.detik.com/a1"; "https://news.detik.com/a2";
                "https://news.detik.com/a3"])
    by (eexists; split; reflexivity).
  destruct Hrun as (items & Hrun & Hurls).
  destruct (Hok items Hrun) as (Hlog & _ & segments & Hseg & Hitems).
  split; [exact Hlog |].
  exists segments. split; [exact Hseg |]. rewrite Hrun, <- Hitems.
  split; [reflexivity | exact Hurls].
Defined.

(** The first listing page with the answers arriving last first. *)
Lemma parse_preserves_stub_order_witness :
  site (listing_request "banjir" 1) = ok_page "<listing 1>" /\
  PyStr.truthy "<listing 1>" = true /\
  fst (parse search_url (page_params "banjir" 1) user_agent reversed []) =
    Ok [mkScrapeResult "Banjir Jakarta" "https://news.detik.com/a1"
          "Senin, 01 Jan 2024 10:00 WIB" "Air naik."
          (PyStr.join PyStr.LF ["Satu."; "Dua."]);
        mkScrapeResult "Banjir Bekasi" "https://news.detik.com/a2"
          "Senin, 01 Jan 2024 11:00 WIB" "No description"
          "No content available."].
Proof.
  split; [reflexivity | split; [reflexivity |]].
  apply (proj1 (parse_preserves_stub_order site (fun _ => [3; 2; 1; 0]%nat)
                  search_url (page_params "banjir" 1) user_agent []
                  (mkResponse 200 "<listing 1>" None) eq_refl eq_refl _)).
  repeat constructor.
Defined.

(** The third listing page has no stub. *)
Lemma parse_empty_listing_witness :
  site (listing_request "banjir" 3) = ok_page "<listing 3>" /\
  stubs_of "<listing 3>" = [] /\
  parse search_url (page_params "banjir" 3) user_agent in_order [] =
    (Ok [], [listing_request "banjir" 3]).
Proof.
  split; [reflexivity | split; [reflexivity |]].
  exact (parse_empty_listing in_order search_url (page_params "banjir" 3) user_agent []
           (mkResponse 200 "<listing 3>" None) eq_refl (or_intror eq_refl)).
Defined.

(** The first article has two paragraphs, the second one none. *)
Lemma parse_content_sentinel_or_join_witness :
  site (article_request "https://news.detik.com/a1") = ok_page "<article 1>" /\
  map node_text (paragraphs_of "<article 1>") = ["Satu."; "Dua."] /\
  outcome site (parse_content "https://news.detik.com/a1") =
    Ok ("Satu." ++ String "010"%char "Dua.")%string /\
  site (article_request "https://news.detik.com/a2") = ok_page "<article 2>" /\
  paragraphs_of "<article 2>" = [] /\
  outcome site (parse_content "https://news.detik.com/a2") =
    Ok "No content available.".
Proof.
  split; [reflexivity | split; [reflexivity |]].
  split.
  { exact (proj2 (parse_content_sentinel_or_join site "https://news.detik.com/a1"
                    (mkResponse 200 "<article 1>" None) eq_refl)
                 (leaf "Satu.") [leaf "Dua."] eq_refl). }
  split; [reflexivity | split; [reflexivity |]].
  exact (proj1 (parse_content_sentinel_or_join site "https://news.detik.com/a2"
                  (mkResponse 200 "<article 2>" None) eq_refl) eq_refl).
Defined.

(** The payload of the spec. *)
Lemma trending_keywords_of_payload_witness :
  upstream (feed payload_ab) (mkRequest trending_url [] user_agent 10) =
    Responded (mkResponse 200 "" (Some payload_ab)) /\
  outcome (upstream (feed payload_ab)) (get_trending_keywords trending_url user_agent) =
    Ok [JStr "a"; JStr "b"].
Proof.
  split; [reflexivity |].
  exact (proj1 (trending_keywords_of_payload (upstream (feed payload_ab))
                  trending_url user_agent (mkResponse 200 "" (Some payload_ab))
                  payload_ab eq_refl eq_refl) eq_refl).
Defined.

(** The first stub has a description with white space around it, the
    second stub has no description element. *)
Lemma parse_item_desc_witness :
  css_first stub1 "div.media__desc" = Some (leaf " Air naik.  ") /\
  (exists item,
      outcome site (parse_item stub1) = Ok item /\
      desc item = "Air naik." /\
      trimmed (desc item) = true /\
      exists lead trail,
        " Air naik.  " = (lead ++ desc item ++ trail)%string /\
        blank lead = true /\ blank trail = true) /\
  css_first stub2 "div.media__desc" = None /\
  exists item,
    outcome site (parse_item stub2) = Ok item /\ desc item = "No description".
Proof.
  split; [reflexivity |]. split.
  { eexists; split; [reflexivity |].
    exact (proj2 (parse_item_desc site stub1 _ eq_refl)
                 (leaf " Air naik.  ") eq_refl). }
  split; [reflexivity |].
  eexists; split; [reflexivity |].
  exact (proj1 (parse_item_desc site stub2 _ eq_refl) eq_refl).
Defined.

(** A feed whose second entry has no keyword. *)
Lemma trending_keywords_malformed_entry_witness :
  let entries := [JObj [("keyword", JStr "a")]; JObj [("rank", JNum 2)]] in
  let body := [("topKeywordSearch", JArr entries)] in
  let payload := JObj [("body", JObj body)] in
  existsb (fun item => negb (has_keyword item)) entries = true /\
  exists e,
    outcome (upstream (feed payload)) (get_trending_keywords trending_url user_agent) =
      Err e /\
    (e = KeyError "keyword" \/ e = TypeError).
Proof.
  intros entries body payload. split; [reflexivity |].
  exact (trending_keywords_malformed_entry (upstream (feed payload))
           trending_url user_agent (mkResponse 200 "" (Some payload))
           [("body", JObj body)] body entries
           eq_refl eq_refl eq_refl eq_refl eq_refl).
Defined.

(** ** Runs of the test double *)

(** The completion order does not show in the records. *)
Example scrape_reversed_same_records :
  fst (scrape "banjir" 2 reversed []) = fst (scrape "banjir" 2 in_order []).
Proof. reflexivity. Qed.

(** A listing fetch that times out. *)
Example scrape_listing_timeout :
  fst (scrape "banjir" 6 in_order []) =
    Err (HTTPException 504
           "Timeout: unable to connect to https://www.detik.com/search/searchall?") /\
  filter is_listing (snd (scrape "banjir" 6 in_order [])) =
    map (listing_request "banjir") [1; 2; 3; 4; 5].
Proof. split; reflexivity. Qed.

(** A stub without title on the page of an article that times out: the
    [AttributeError] of the stub is raised while the article fetch is in
    flight. *)
Example malformed_stub_before_timeout :
  parse search_url (page_params "banjir" 6) user_agent slow [] =
    (Err AttributeError,
     [listing_request "banjir" 6; article_request "https://news.detik.com/a2"]).
Proof. reflexivity. Qed.

End Witnesses.


(** * Further properties of the pipeline *)

(** ** Tasks that end with their first answer *)

Lemma one_shot_start {A : Type} (c : Coro A) :
  one_shot c -> slot_one_shot (start c).
Proof. destruct c; simpl; auto. Qed.

Lemma slot_one_shot_resume {A : Type} up rq (k : GetOutcome -> Coro A) :
  slot_one_shot (Pending rq k) ->
  issued (start (k (up rq))) = [] /\ trace up (k (up rq)) = [] /\
  slot_one_shot (start (k (up rq))).
Proof.
  simpl. intros H. specialize (H (up rq)).
  destruct (k (up rq)); simpl; tauto.
Qed.

Lemma Forall_set_nth {A : Type} (P : A -> Prop) i x (l : list A) :
  Forall P l -> P x -> Forall P (set_nth i x l).
Proof.
  intros H; revert i; induction H as [| y l Hy H IH]; intros [| i] Hx; simpl;
    constructor; auto.
Qed.

Lemma complete_one_shot_log {A : Type} up order :
  forall (slots : list (Slot A)) log,
    Forall slot_one_shot slots ->
    snd (complete up order slots log) = log /\
    forall slots', fst (complete up order slots log) = Ok slots' ->
                   Forall slot_one_shot slots'.
Proof.
  induction order as [| i order IH]; intros slots log Hall; simpl.
  - split; [reflexivity |]. now intros slots' [= <-].
  - destruct (nth_error slots i) as [[rq k | a | e] |] eqn:Hi; auto.
    assert (Hs : slot_one_shot (Pending rq k)).
    { rewrite Forall_forall in Hall. eapply Hall, nth_error_In; eauto. }
    destruct (slot_one_shot_resume up rq k Hs) as (Hiss & _ & Hnext).
    destruct (start (k (up rq))) as [rq' k' | a | e] eqn:Hstart.
    + discriminate Hiss.
    + simpl. rewrite app_nil_r. apply IH. apply Forall_set_nth; auto.
    + simpl. split; [reflexivity | discriminate].
Qed.

Lemma drain_one_shot_log {A : Type} env :
  forall (slots : list (Slot A)) log,
    Forall slot_one_shot slots -> snd (drain slots env log) = log.
Proof.
  induction slots as [| s slots IH]; intros log Hall; [reflexivity |].
  inversion Hall as [| s0 l0 Hs Hrest]; subst.
  destruct s as [rq k | a | e]; simpl.
  - unfold mbind. rewrite await_spec.
    destruct (slot_one_shot_resume (upstream env) rq k Hs) as (_ & -> & _).
    rewrite app_nil_r.
    destruct (outcome (upstream env) (k (upstream env rq))); [| reflexivity].
    specialize (IH log Hrest).
    destruct (drain slots env log) as [[l | e] log']; simpl in *; exact IH.
  - unfold mbind. specialize (IH log Hrest).
    destruct (drain slots env log) as [[l | e] log']; simpl in *; exact IH.
  - reflexivity.
Qed.

(** With such tasks, the requests of a [gather] are the first requests of
    the tasks, in the order of the tasks, whatever happens next. *)
Lemma gather_one_shot_log {A : Type} (tasks : list (Coro A)) env log :
  Forall one_shot tasks ->
  snd (gather tasks env log) =
    log ++ List.concat (map issued (map start tasks)).
Proof.
  intros Hall. unfold gather.
  destruct (first_failed (map start tasks)); [reflexivity |].
  assert (Hslots : Forall slot_one_shot (map start tasks)).
  { apply Forall_forall. intros s Hs. apply in_map_iff in Hs.
    destruct Hs as (c & <- & Hc). apply one_shot_start.
    rewrite Forall_forall in Hall. auto. }
  destruct (complete_one_shot_log (upstream env) (completion env log)
              (map start tasks)
              (log ++ List.concat (map issued (map start tasks))) Hslots)
    as [Hlog Hnext].
  destruct (complete _ _ _ _) as [[slots' | e] log2]; simpl in Hlog; subst log2;
    [| reflexivity].
  apply drain_one_shot_log. now apply Hnext.
Qed.

(** ** Stubs *)

Section Stubs.

Context {markup : Markup}.

Lemma parse_item_fields result t d u :
  stub_fields result = Some (t, d, u) ->
  parse_item result =
  (content <- parse_content u ;;
   Return {| title := PyStr.strip t;
             url := u;
             date := d;
             desc := PyStr.strip
                       match css_first result "div.media__desc" with
                       | Some x => node_text x
                       | None => "No description"
                       end;
             content := content |}).
Proof.
  unfold stub_fields, parse_item.
  destruct (css_first result "h3.media__title") as [tn |]; [| discriminate].
  destruct (css_first result ".media__date > span") as [dn |]; [| discriminate].
  simpl. destruct (lookup "title" (attrs dn)) as [d' |]; [| discriminate].
  destruct (css_first result "a") as [an |]; [| discriminate].
  simpl. destruct (lookup "href" (attrs an)) as [u' |]; [| discriminate].
  intros [= <- <- <-]. reflexivity.
Qed.

Lemma parse_item_no_fields result :
  stub_fields result = None ->
  exists e,
    (e = AttributeError \/ e = KeyError "title" \/ e = KeyError "href") /\
    parse_item result = Raise e.
Proof.
  unfold stub_fields, parse_item.
  destruct (css_first result "h3.media__title") as [tn |]; simpl; [| eauto].
  destruct (css_first result ".media__date > span") as [dn |]; simpl; [| eauto].
  destruct (lookup "title" (attrs dn)) as [d' |]; simpl; [| eauto 6].
  destruct (css_first result "a") as [an |]; simpl; [| eauto].
  destruct (lookup "href" (attrs an)) as [u' |]; simpl; [discriminate | eauto 6].
Qed.

Lemma parse_item_start result :
  issued (start (parse_item result)) =
  match stub_fields result with
  | Some (_, _, u) => [article_request u]
  | None => []
  end.
Proof.
  destruct (stub_fields result) as [[[t d] u] |] eqn:Hf.
  - rewrite (parse_item_fields _ _ _ _ Hf). reflexivity.
  - destruct (parse_item_no_fields _ Hf) as (e & _ & ->). reflexivity.
Qed.

Lemma parse_item_one_shot result : one_shot (parse_item result).
Proof.
  destruct (stub_fields result) as [[[t d] u] |] eqn:Hf.
  - rewrite (parse_item_fields _ _ _ _ Hf). simpl.
    intros [response | [| | name]]; exact I.
  - destruct (parse_item_no_fields _ Hf) as (e & _ & ->). exact I.
Qed.

Lemma issued_links stubs :
  List.concat (map issued (map start (map parse_item stubs))) =
  map article_request (links_of stubs).
Proof.
  unfold links_of. induction stubs as [| result stubs IH]; [reflexivity |].
  simpl. rewrite IH, parse_item_start, map_app. f_equal.
  destruct (stub_fields result) as [[[t d] u] |]; reflexivity.
Qed.

Lemma first_failed_stub pre bad post e :
  Forall (fun result => stub_fields result <> None) pre ->
  parse_item bad = Raise e ->
  first_failed (map start (map parse_item (pre ++ bad :: post))) = Some e.
Proof.
  intros Hpre Hbad. induction Hpre as [| result pre Hr _ IH]; simpl.
  - now rewrite Hbad.
  - destruct (stub_fields result) as [[[t d] u] |] eqn:Hf; [| contradiction].
    rewrite (parse_item_fields _ _ _ _ Hf). simpl. exact IH.
Qed.

End Stubs.

Lemma parse_content_answered {markup : Markup} up u response :
  up (article_request u) = Responded response ->
  exists c, outcome up (parse_content u) = Ok c.
Proof.
  intros Hup. unfold parse_content. rewrite outcome_bind.
  rewrite (fetch_page_responded _ _ _ _ _ Hup). eexists; reflexivity.
Qed.

(** ** One stub, one page *)

Section StubProperties.

Context {markup : Markup}.

(** X1.  For a stub that has its title, a date and a link that are not
    empty, whose article fetch is answered, [parse_item] issues that one
    fetch, to the link as it stands in the page and with neither parameters
    nor headers, and returns a record whose [url] is the link, whose [date]
    is the [title] attribute of the date element, whose [title] is the
    stripped title text, and whose [content] is what [parse_content]
    resolves at the link. *)
Theorem parse_item_record env result t d u response log :
  stub_fields result = Some (t, d, u) ->
  d <> "" ->
  u <> "" ->
  upstream env (article_request u) = Responded response ->
  exists item,
    await (parse_item result) env log = (Ok item, log ++ [article_request u]) /\
    title item = PyStr.strip t /\ url item = u /\ date item = d /\
    outcome (upstream env) (parse_content u) = Ok (content item).
Proof.
  intros Hf _ _ Hup. rewrite await_spec, (parse_item_fields _ _ _ _ Hf).
  rewrite outcome_bind, trace_bind, parse_content_trace.
  destruct (parse_content_answered (upstream env) u response Hup)
    as (c & Hc).
  rewrite Hc. simpl. eexists; split; [reflexivity |]. simpl. auto.
Qed.

End StubProperties.

Section StubFailures.

Context {markup : Markup}.

(** X2.  For a stub that has its three fields, an article fetch that times
    out makes [parse_item] raise the 504 of [fetch_page], whose detail names
    the link; any other transport error is raised as it is.  No record is
    built and nothing is retried: the article fetch is the only request. *)
Theorem parse_item_fetch_error env result t d u e0 log :
  stub_fields result = Some (t, d, u) ->
  upstream env (article_request u) = Raised e0 ->
  (e0 = TimeoutException ->
   await (parse_item result) env log =
     (Err (HTTPException 504 ("Timeout: unable to connect to " ++ u)),
      log ++ [article_request u])) /\
  (forall name, e0 = TransportError name ->
   await (parse_item result) env log =
     (Err (Httpx (TransportError name)), log ++ [article_request u])).
Proof.
  intros Hf Hup. rewrite await_spec, (parse_item_fields _ _ _ _ Hf).
  rewrite outcome_bind, trace_bind, parse_content_trace.
  unfold parse_content. rewrite outcome_bind. unfold fetch_page at 1 3.
  simpl outcome. unfold article_request in Hup. rewrite Hup.
  split; [intros -> | intros name ->]; reflexivity.
Qed.

(** X3.  A stub without title element, without date element or its [title]
    attribute, or without link or its [href] attribute makes [parse_item]
    raise an [AttributeError] or a [KeyError] before it issues any request. *)
Theorem parse_item_malformed result :
  stub_fields result = None ->
  exists e,
    (e = AttributeError \/ e = KeyError "title" \/ e = KeyError "href") /\
    forall env log, await (parse_item result) env log = (Err e, log).
Proof.
  intros Hf. destruct (parse_item_no_fields _ Hf) as (e & He & Hraise).
  exists e; split; [exact He |]. intros env log. now rewrite Hraise.
Qed.

(** X4.  One malformed stub fails the whole listing page: when the page has
    a stub without its fields, the stubs before it have links whose article
    fetches have left, and the stubs after it have links that are not empty,
    [parse] raises the exception of that stub, whatever the order in which
    the answers arrive; the article fetches of the well-formed stubs of the
    page, those after the malformed one included, have all been issued by
    then. *)
Theorem parse_fails_on_malformed_stub up order url params headers log response
    pre bad post :
  up (mkRequest url params headers 10) = Responded response ->
  PyStr.truthy (text response) = true ->
  stubs_of (text response) = pre ++ bad :: post ->
  Forall (link_in_flight up) pre ->
  stub_fields bad = None ->
  Forall link_given post ->
  exists e,
    parse_item bad = Raise e /\
    parse url params headers (mkEnv up order) log =
      (Err e,
       log ++ mkRequest url params headers 10
           :: map article_request (links_of (stubs_of (text response)))).
Proof.
  intros Hup Htext Hstubs Hflight Hbad _.
  assert (Hpre : Forall (fun result => stub_fields result <> None) pre).
  { eapply Forall_impl; [| exact Hflight].
    intros result (t & d & u & Hf & _). congruence. }
  destruct (parse_item_no_fields _ Hbad) as (e & _ & Hraise).
  exists e; split; [exact Hraise |].
  rewrite parse_unfold. simpl upstream.
  rewrite (fetch_page_responded _ _ _ _ _ Hup), Htext. simpl negb. cbv iota.
  unfold gather. rewrite issued_links.
  rewrite Hstubs at 1. rewrite (first_failed_stub _ _ _ _ Hpre Hraise).
  now rewrite <- app_assoc.
Qed.

Lemma parse_page_log env keyword page log :
  snd (parse search_url (page_params keyword page) user_agent env log) =
    log ++ page_requests env keyword page.
Proof.
  unfold page_requests, listing_request.
  generalize search_url (page_params keyword page) user_agent.
  intros url params headers.
  rewrite parse_unfold. unfold listed, fetch_page. simpl outcome.
  destruct (upstream env _) as [response | [| | name]]; try reflexivity.
  simpl outcome. cbv beta iota.
  destruct (PyStr.truthy (text response)); simpl negb; cbv iota; [| reflexivity].
  rewrite gather_one_shot_log, issued_links.
  - now rewrite <- app_assoc.
  - apply Forall_forall. intros c Hc. apply in_map_iff in Hc.
    destruct Hc as (result & <- & _). apply parse_item_one_shot.
Qed.

(** X5.  The requests of [parse] are the listing fetch followed by one
    article fetch per stub that has its fields, in document order: all of
    them are issued, whatever the order in which the answers arrive and
    whether or not [parse] ends with an exception; none when the listing
    fetch is not answered or has an empty body. *)
Theorem parse_requests env url params headers log :
  snd (parse url params headers env log) =
    log ++ mkRequest url params headers 10
        :: map article_request
             (links_of (listed env (mkRequest url params headers 10))).
Proof.
  rewrite parse_unfold. unfold listed, fetch_page. simpl outcome.
  destruct (upstream env _) as [response | [| | name]]; try reflexivity.
  simpl outcome. cbv beta iota.
  destruct (PyStr.truthy (text response)); simpl negb; cbv iota; [| reflexivity].
  rewrite gather_one_shot_log, issued_links.
  - now rewrite <- app_assoc.
  - apply Forall_forall. intros c Hc. apply in_map_iff in Hc.
    destruct Hc as (result & <- & _). apply parse_item_one_shot.
Qed.

End StubFailures.

(** ** Page after page *)

Section Pages.

Context {markup : Markup}.

Lemma record_of_url env result item :
  record_of env result = Ok item ->
  exists t d, stub_fields result = Some (t, d, url item).
Proof.
  unfold record_of.
  destruct (stub_fields result) as [[[t d] u] |] eqn:Hf.
  - rewrite (parse_item_fields _ _ _ _ Hf), outcome_bind.
    destruct (outcome _ (parse_content u)); [| discriminate].
    simpl. intros [= <-]. simpl. eauto.
  - destruct (parse_item_no_fields _ Hf) as (e & _ & ->). discriminate.
Qed.

Lemma records_urls env stubs segment :
  Forall2 (fun result item => record_of env result = Ok item) stubs segment ->
  map url segment = links_of stubs /\ List.length segment = List.length stubs.
Proof.
  unfold links_of.
  induction 1 as [| result item stubs segment Hr _ [IHu IHl]]; [split; reflexivity |].
  destruct (record_of_url _ _ _ Hr) as (t & d & Hf).
  simpl. rewrite Hf, IHu, IHl. split; reflexivity.
Qed.

Lemma page_records_urls env keyword page segment :
  page_records env keyword page = Ok segment ->
  map url segment = links_of (listed env (listing_request keyword page)) /\
  List.length segment = List.length (listed env (listing_request keyword page)).
Proof.
  unfold page_records. rewrite parse_ok_iff. intros (response & Hup & H).
  unfold listed, listing_request. rewrite Hup.
  destruct (PyStr.truthy (text response)).
  - exact (records_urls _ _ _ H).
  - subst. split; reflexivity.
Qed.

Lemma page_records_any_order up order order' keyword page segment :
  page_records (mkEnv up order) keyword page = Ok segment <->
  page_records (mkEnv up order') keyword page = Ok segment.
Proof. unfold page_records. rewrite !parse_ok_iff. reflexivity. Qed.

Lemma Forall2_page_records_fun env keyword pages segments segments' :
  Forall2 (fun page segment => page_records env keyword page = Ok segment)
          pages segments ->
  Forall2 (fun page segment => page_records env keyword page = Ok segment)
          pages segments' ->
  segments = segments'.
Proof.
  intros H; revert segments'.
  induction H as [| page segment pages segments Hp _ IH]; intros segments' H';
    inversion H'; subst; [reflexivity |].
  f_equal; [congruence | auto].
Qed.

Lemma scrape_loop_requests env keyword pages :
  forall all_items log r log',
    scrape_loop keyword pages all_items env log = (r, log') ->
    (exists n, (pages <> [] -> 1 <= n)%nat /\
               log' = log ++ flat_map (page_requests env keyword) (firstn n pages)) /\
    (forall items, r = Ok items ->
                   log' = log ++ flat_map (page_requests env keyword) pages).
Proof.
  induction pages as [| page pages IH]; intros all_items log r log' Hrun;
    simpl in Hrun.
  - injection Hrun as <- <-. split.
    + exists O. split; [congruence | now rewrite app_nil_r].
    + intros _ _. now rewrite app_nil_r.
  - unfold mbind in Hrun.
    pose proof (parse_page_log env keyword page log) as Hlog.
    destruct (parse search_url (page_params keyword page) user_agent env log)
      as [[items1 | e] log1]; simpl in Hlog; subst log1.
    + apply IH in Hrun. destruct Hrun as [(n & _ & Hn) Hok]. split.
      * exists (S n). split; [lia |]. rewrite Hn. simpl.
        now rewrite <- !app_assoc.
      * intros items Hr. rewrite (Hok items Hr). simpl.
        now rewrite <- !app_assoc.
    + injection Hrun as <- <-. split; [| discriminate].
      exists 1%nat. split; [lia |]. simpl. now rewrite ?firstn_O, app_nil_r.
Qed.

Lemma scrape_loop_abort env keyword pre page post :
  forall all_items log r log',
    scrape_loop keyword (pre ++ page :: post) all_items env log = (r, log') ->
    (forall q, In q pre -> exists segment, page_records env keyword q = Ok segment) ->
    (forall segment, page_records env keyword page <> Ok segment) ->
    (exists e, r = Err e) /\
    log' = log ++ flat_map (page_requests env keyword) (pre ++ [page]).
Proof.
  induction pre as [| q pre IH]; intros all_items log r log' Hrun Hpre Hpage;
    simpl in Hrun; unfold mbind in Hrun.
  - pose proof (parse_page_log env keyword page log) as Hlog.
    pose proof (parse_page_records env keyword log page) as Hrec.
    destruct (parse search_url (page_params keyword page) user_agent env log)
      as [[items1 | e] log1]; simpl in Hlog, Hrec; subst log1.
    + exfalso. apply (Hpage items1). now apply Hrec.
    + injection Hrun as <- <-. split; [eauto |]. simpl. now rewrite app_nil_r.
  - pose proof (parse_page_log env keyword q log) as Hlog.
    pose proof (parse_page_records env keyword log q) as Hrec.
    destruct (parse search_url (page_params keyword q) user_agent env log)
      as [[items1 | e] log1]; simpl in Hlog, Hrec; subst log1.
    + apply IH in Hrun; [| intros q' Hq'; apply Hpre; now right | exact Hpage].
      destruct Hrun as [Herr ->]. split; [exact Herr |]. simpl.
      now rewrite <- !app_assoc.
    + exfalso. destruct (Hpre q) as (segment & Hseg); [now left |].
      apply Hrec in Hseg. discriminate.
Qed.

Lemma filter_articles_page_requests env keyword page :
  filter (fun rq => negb (is_listing rq)) (page_requests env keyword page) =
  map article_request (links_of (listed env (listing_request keyword page))).
Proof.
  unfold page_requests. simpl.
  induction (links_of _) as [| u links IH]; [reflexivity |].
  simpl. now rewrite IH.
Qed.

End Pages.

Section PagesProperties.

Context {markup : Markup}.

Lemma segments_urls env keyword pages segments :
  Forall2 (fun page segment => page_records env keyword page = Ok segment)
          pages segments ->
  map url (List.concat segments) =
    flat_map (fun page => links_of (listed env (listing_request keyword page))) pages /\
  List.length (List.concat segments) =
    List.length (flat_map (fun page => listed env (listing_request keyword page)) pages).
Proof.
  induction 1 as [| page segment pages segments Hp _ [IHu IHl]]; [split; reflexivity |].
  destruct (page_records_urls _ _ _ _ Hp) as [Hu Hl].
  simpl. rewrite map_app, !length_app, Hu, Hl, IHu, IHl. split; reflexivity.
Qed.

Lemma filter_articles_pages env keyword pages :
  filter (fun rq => negb (is_listing rq))
         (flat_map (page_requests env keyword) pages) =
  map article_request
      (flat_map (fun page => links_of (listed env (listing_request keyword page)))
                pages).
Proof.
  induction pages as [| page pages IH]; [reflexivity |].
  cbn [flat_map]. rewrite filter_app, map_app, IH.
  now rewrite filter_articles_page_requests.
Qed.

(** X6.  The requests of a [scrape] go page by page: the listing fetch of a
    page, then the article fetches of that page, and only then the listing
    fetch of the next page.  A [scrape] that returns has gone through all the
    pages asked for; one that raises has stopped after an initial run of
    them, of at least one. *)
Theorem scrape_requests_by_page env keyword pages r log :
  1 <= pages ->
  scrape keyword pages env [] = (r, log) ->
  (exists n, (1 <= n)%nat /\
             log = flat_map (page_requests env keyword)
                            (firstn n (PyStr.range 1 (pages + 1)))) /\
  (forall items, r = Ok items ->
                 log = flat_map (page_requests env keyword)
                                (PyStr.range 1 (pages + 1))).
Proof.
  intros Hpages Hrun. unfold scrape in Hrun.
  destruct (pages <? 1) eqn:Hlt; [apply Z.ltb_lt in Hlt; lia |].
  apply scrape_loop_requests in Hrun. destruct Hrun as [(n & Hn & Hlog) Hok].
  split; [| exact Hok].
  exists n; split; [| exact Hlog].
  apply Hn. rewrite range_from_1.
  destruct (Z.to_nat pages) eqn:Hp; [lia | discriminate].
Qed.

(** X7.  In the list a [scrape] returns, the [url] fields are, in order, the
    links of the stubs of the pages asked for; there are as many records as
    stubs on those pages; and the article fetches that were issued are those
    of the [url] fields, in the same order. *)
Theorem scrape_records_match_fetches env keyword pages items log :
  scrape keyword pages env [] = (Ok items, log) ->
  map url items =
    flat_map (fun page => links_of (listed env (listing_request keyword page)))
             (PyStr.range 1 (pages + 1)) /\
  List.length items =
    List.length (flat_map (fun page => listed env (listing_request keyword page))
                          (PyStr.range 1 (pages + 1))) /\
  filter (fun rq => negb (is_listing rq)) log = map article_request (map url items).
Proof.
  unfold scrape. destruct (pages <? 1); [discriminate |]. intros Hrun.
  pose proof (scrape_loop_requests _ _ _ _ _ _ _ Hrun) as [_ Hlog].
  specialize (Hlog items eq_refl). simpl in Hlog.
  apply scrape_loop_spec in Hrun. destruct Hrun as (Hok & _ & _).
  destruct (Hok items eq_refl) as [_ (segments & Hseg & ->)]. simpl.
  destruct (segments_urls _ _ _ _ Hseg) as [Hu Hl].
  repeat split; [exact Hu | exact Hl |].
  rewrite Hlog, Hu. apply filter_articles_pages.
Qed.

(** X8.  The order in which the answers arrive shows neither in the list a
    [scrape] returns nor in the requests it has issued: a [scrape] that
    returns under one completion order returns the same list, after the same
    requests, under any other. *)
Theorem scrape_any_completion_order up order order' keyword pages items log :
  scrape keyword pages (mkEnv up order) [] = (Ok items, log) ->
  scrape keyword pages (mkEnv up order') [] = (Ok items, log).
Proof.
  unfold scrape. destruct (pages <? 1); [discriminate |]. intros Hrun.
  pose proof (scrape_loop_requests _ _ _ _ _ _ _ Hrun) as [_ Hlog].
  specialize (Hlog items eq_refl).
  apply scrape_loop_spec in Hrun. destruct Hrun as (Hok & _ & _).
  destruct (Hok items eq_refl) as [_ (segments & Hseg & ->)].
  destruct (scrape_loop keyword (PyStr.range 1 (pages + 1)) [] (mkEnv up order') [])
    as [r' log'] eqn:Hrun'.
  pose proof (scrape_loop_requests _ _ _ _ _ _ _ Hrun') as [_ Hlog'].
  apply scrape_loop_spec in Hrun'. destruct Hrun' as (Hok' & Htotal' & _).
  assert (Hseg' : Forall2 (fun page segment =>
                             page_records (mkEnv up order') keyword page = Ok segment)
                          (PyStr.range 1 (pages + 1)) segments).
  { eapply Forall2_impl; [| exact Hseg]. intros page segment H.
    now apply (page_records_any_order up order order'). }
  destruct Htotal' as (items' & ->).
  { intros page Hin. clear - Hseg' Hin.
    induction Hseg' as [| p s ps ss Hp _ IH]; [contradiction |].
    destruct Hin as [<- | Hin]; eauto. }
  destruct (Hok' items' eq_refl) as [_ (segments' & Hseg'' & ->)].
  rewrite (Forall2_page_records_fun _ _ _ _ _ Hseg'' Hseg').
  rewrite (Hlog' _ eq_refl), Hlog. reflexivity.
Qed.

(** X9.  A page that does not yield its records aborts the [scrape]: when the
    pages before it have yielded theirs, the [scrape] raises, and its
    requests are those of the pages up to that one; nothing is requested for
    the pages after it. *)
Theorem scrape_aborts_at_failing_page env keyword pages pre page post r log :
  1 <= pages ->
  PyStr.range 1 (pages + 1) = pre ++ page :: post ->
  (forall q, In q pre -> exists segment, page_records env keyword q = Ok segment) ->
  (forall segment, page_records env keyword page <> Ok segment) ->
  scrape keyword pages env [] = (r, log) ->
  (exists e, r = Err e) /\
  log = flat_map (page_requests env keyword) (pre ++ [page]).
Proof.
  intros Hpages Hrange Hpre Hpage. unfold scrape.
  destruct (pages <? 1) eqn:Hlt; [apply Z.ltb_lt in Hlt; lia |].
  rewrite Hrange. intros Hrun.
  exact (scrape_loop_abort _ _ _ _ _ _ _ _ _ Hrun Hpre Hpage).
Qed.

End PagesProperties.

(** ** All or nothing *)

Section AllOrNothing.

Context {markup : Markup}.






End AllOrNothing.


(** ** The first failure to arrive *)





Section FirstFailure.

Context {markup : Markup}.




End FirstFailure.

(** ** Stripped fields *)

Section Stripped.

Context {markup : Markup}.

Lemma record_trimmed env result item :
  record_of env result = Ok item ->
  trimmed (title item) = true /\ trimmed (desc item) = true.
Proof.
  unfold record_of.
  destruct (stub_fields result) as [[[t d] u] |] eqn:Hf.
  - rewrite (parse_item_fields _ _ _ _ Hf), outcome_bind.
    destruct (outcome _ (parse_content u)); [| discriminate].
    simpl. intros [= <-]. simpl. split; apply strip_trimmed.
  - destruct (parse_item_no_fields _ Hf) as (e & _ & ->). discriminate.
Qed.

Lemma page_records_from_stubs env keyword page segment :
  page_records env keyword page = Ok segment ->
  Forall (fun item => exists result, record_of env result = Ok item) segment.
Proof.
  unfold page_records. rewrite parse_ok_iff. intros (response & _ & H).
  destruct (PyStr.truthy (text response)); [| subst; constructor].
  induction H; constructor; eauto.
Qed.

Lemma segments_trimmed env keyword pages segments :
  Forall2 (fun page segment => page_records env keyword page = Ok segment)
          pages segments ->
  Forall (fun item => trimmed (title item) = true /\ trimmed (desc item) = true)
         (List.concat segments).
Proof.
  induction 1 as [| page segment pages segments Hp _ IH]; [constructor |].
  simpl. apply Forall_app; split; [| exact IH].
  eapply Forall_impl; [| exact (page_records_from_stubs _ _ _ _ Hp)].
  intros item (result & Hr). exact (record_trimmed _ _ _ Hr).
Qed.

(** X11.  Every record a [scrape] returns has a [title] and a [desc] that
    neither start nor end with white space. *)
Theorem scrape_records_trimmed env keyword pages items log :
  scrape keyword pages env [] = (Ok items, log) ->
  Forall (fun item => trimmed (title item) = true /\ trimmed (desc item) = true)
         items.
Proof.
  unfold scrape. destruct (pages <? 1); [discriminate |]. intros Hrun.
  apply scrape_loop_spec in Hrun. destruct Hrun as (Hok & _ & _).
  destruct (Hok items eq_refl) as [_ (segments & Hseg & ->)]. simpl.
  exact (segments_trimmed _ _ _ _ Hseg).
Qed.

End Stripped.

(** ** The trending feed, further *)

Lemma outcome_settled {A : Type} up up' (c : Coro A) :
  settled c -> outcome up c = outcome up' c.
Proof. destruct c; simpl; [reflexivity | reflexivity | contradiction]. Qed.

Lemma settled_bind {A B : Type} (c : Coro A) (f : A -> Coro B) :
  settled c -> (forall a, settled (f a)) -> settled (bind c f).
Proof. destruct c; simpl; auto. Qed.

Lemma settled_py_in key v : settled (py_in key v).
Proof. destruct v; exact I. Qed.

Lemma settled_getitem v key : settled (getitem v key).
Proof. destruct v as [| | | | | o]; try exact I. simpl. destruct (lookup key o); exact I. Qed.

Lemma settled_py_iter v : settled (py_iter v).
Proof. destruct v; exact I. Qed.

Lemma settled_for_each {A B : Type} (f : A -> Coro B) l :
  (forall x, settled (f x)) -> settled (for_each f l).
Proof.
  intros Hf. induction l as [| x l IH]; [exact I |].
  cbn [for_each]. apply settled_bind; [apply Hf |].
  intros y. apply settled_bind; [exact IH | intros ys; exact I].
Qed.

Lemma keywords_ok_inv up items values :
  outcome up (for_each (fun item => getitem item "keyword") items) = Ok values ->
  Forall2 keyword_is items values.
Proof.
  revert values; induction items as [| item items IH]; intros values.
  - simpl. intros [= <-]. constructor.
  - cbn [for_each]. rewrite outcome_bind.
    destruct (outcome up (getitem item "keyword")) as [v |] eqn:Hitem; [| discriminate].
    rewrite outcome_bind.
    destruct (outcome up (for_each _ items)) as [vs |] eqn:Hrest; [| discriminate].
    simpl. intros [= <-]. constructor; [| now apply IH].
    destruct item as [| | | | | o]; try discriminate Hitem.
    simpl in Hitem. exists o; split; [reflexivity |].
    destruct (lookup "keyword" o); [| discriminate]. simpl in Hitem. congruence.
Qed.

Section TrendingProperties.

Variable up : Request -> GetOutcome.

(** X12.  [get_trending_keywords] looks at the decoded body of the answer
    and at nothing else: two answers with the same decoded body give the
    same result, whatever their status codes, a non-success one included. *)
Theorem trending_ignores_status up' url headers response response' :
  up (mkRequest url [] headers 10) = Responded response ->
  up' (mkRequest url [] headers 10) = Responded response' ->
  json response = json response' ->
  outcome up (get_trending_keywords url headers) =
  outcome up' (get_trending_keywords url headers).
Proof.
  intros Hup Hup' Hjson. unfold get_trending_keywords. rewrite !outcome_bind.
  unfold fetch_json. simpl outcome. rewrite Hup, Hup', <- Hjson.
  destruct (json response) as [payload |]; [| reflexivity]. simpl outcome.
  apply outcome_settled.
  destruct (negb (truthy payload)); [exact I |].
  apply settled_bind; [apply settled_py_in | intros has_body].
  destruct (negb has_body); [exact I |].
  apply settled_bind; [apply settled_getitem | intros body].
  apply settled_bind; [apply settled_py_in | intros has_top].
  destruct (negb has_top); [exact I |].
  apply settled_bind; [apply settled_getitem | intros body'].
  apply settled_bind; [apply settled_getitem | intros top].
  apply settled_bind; [apply settled_py_iter | intros items].
  apply settled_for_each. intros item. apply settled_getitem.
Qed.

(** X14.  A payload that is not a JSON object never yields keywords:
    [get_trending_keywords] returns the empty list or raises a [TypeError]. *)
Theorem trending_non_object_payload url headers response payload :
  up (mkRequest url [] headers 10) = Responded response ->
  json response = Some payload ->
  (forall o, payload <> JObj o) ->
  outcome up (get_trending_keywords url headers) = Ok [] \/
  outcome up (get_trending_keywords url headers) = Err TypeError.
Proof.
  intros Hup Hjson Hobj. unfold get_trending_keywords.
  rewrite outcome_bind, (fetch_json_responded _ _ _ _ _ Hup Hjson).
  destruct (negb (truthy payload)); [now left |].
  destruct payload as [| b | n | s | l | o]; simpl; auto.
  - destruct (negb (PyStr.contains "body" s)); simpl; auto.
  - destruct (negb (existsb (is_str "body") l)); simpl; auto.
  - now destruct (Hobj o).
Qed.

(** X15.  When [body.topKeywordSearch] is a list, [get_trending_keywords]
    returns a list exactly when every entry is an object with a [keyword],
    and the list is then that of the [keyword] values, entry by entry:
    nothing is dropped, merged or reordered. *)
Theorem trending_keywords_exact url headers response o b items values :
  up (mkRequest url [] headers 10) = Responded response ->
  json response = Some (JObj o) ->
  lookup "body" o = Some (JObj b) ->
  lookup "topKeywordSearch" b = Some (JArr items) ->
  (outcome up (get_trending_keywords url headers) = Ok values <->
   Forall2 keyword_is items values) /\
  (outcome up (get_trending_keywords url headers) = Ok values ->
   List.length values = List.length items).
Proof.
  intros Hup Hjson Hbody Htop.
  rewrite (trending_entries _ _ _ _ _ _ _ Hup Hjson Hbody Htop).
  cbn [py_iter bind].
  assert (Hiff : outcome up (for_each (fun item => getitem item "keyword") items) =
                 Ok values <-> Forall2 keyword_is items values).
  { split; [apply keywords_ok_inv | apply keywords_all]. }
  split; [exact Hiff |].
  intros H. apply Hiff in H. symmetry. eapply Forall2_length; eauto.
Qed.

(** X16.  When [body.topKeywordSearch] is present but is not a list,
    [get_trending_keywords] raises a [TypeError], unless the value is the
    empty object or the empty string, for which it returns the empty list. *)
Theorem trending_non_list url headers response o b top :
  up (mkRequest url [] headers 10) = Responded response ->
  json response = Some (JObj o) ->
  lookup "body" o = Some (JObj b) ->
  lookup "topKeywordSearch" b = Some top ->
  (forall l, top <> JArr l) ->
  (top = JObj [] \/ top = JStr "" ->
   outcome up (get_trending_keywords url headers) = Ok []) /\
  (top <> JObj [] -> top <> JStr "" ->
   outcome up (get_trending_keywords url headers) = Err TypeError).
Proof.
  intros Hup Hjson Hbody Htop Hlist.
  rewrite (trending_entries _ _ _ _ _ _ _ Hup Hjson Hbody Htop).
  split.
  - intros [-> | ->]; reflexivity.
  - intros Hobj Hstr.
    destruct top as [| bb | n | s | l | ot]; try reflexivity.
    + destruct s; [contradiction | reflexivity].
    + now destruct (Hlist l).
    + destruct ot as [| [k v] ot]; [contradiction | reflexivity].
Qed.

End TrendingProperties.

(** X13.  [get_trending_keywords] recovers from no failure of its fetch: a
    timeout becomes the 504 whose detail names the feed URL, any other
    transport error is raised as it is, and an answer whose body does not
    decode raises the decoding error; in each case after the single
    request. *)
Theorem trending_fetch_errors env url headers log :
  (upstream env (mkRequest url [] headers 10) = Raised TimeoutException ->
   await (get_trending_keywords url headers) env log =
     (Err (HTTPException 504 ("Timeout: unable to connect to " ++ url)),
      log ++ [mkRequest url [] headers 10])) /\
  (forall name,
      upstream env (mkRequest url [] headers 10) = Raised (TransportError name) ->
      await (get_trending_keywords url headers) env log =
        (Err (Httpx (TransportError name)), log ++ [mkRequest url [] headers 10])) /\
  (forall response,
      upstream env (mkRequest url [] headers 10) = Responded response ->
      json response = None ->
      await (get_trending_keywords url headers) env log =
        (Err JSONDecodeError, log ++ [mkRequest url [] headers 10])).
Proof.
  repeat split.
  - intros H. unfold get_trending_keywords, fetch_json. simpl. now rewrite H.
  - intros name H. unfold get_trending_keywords, fetch_json. simpl. now rewrite H.
  - intros response H Hjson. unfold get_trending_keywords, fetch_json. simpl.
    now rewrite H, Hjson.
Qed.

(** ** The further properties on the test double *)

Section FurtherWitnesses.

Import Fixture.
Import Scenes.

Lemma parse_item_record_witness :
  stub_fields stub1 =
    Some ("  Banjir Jakarta ", "Senin, 01 Jan 2024 10:00 WIB",
          "https://news.detik.com/a1") /\
  exists item,
    await (parse_item stub1) in_order [] =
      (Ok item, [article_request "https://news.detik.com/a1"]) /\
    title item = "Banjir Jakarta" /\
    url item = "https://news.detik.com/a1" /\
    date item = "Senin, 01 Jan 2024 10:00 WIB" /\
    outcome site (parse_content "https://news.detik.com/a1") = Ok (content item).
Proof.
  split; [reflexivity |].
  refine (parse_item_record in_order stub1 _ _ _
            (mkResponse 200 "<article 1>" None) [] eq_refl _ _ eq_refl);
    discriminate.
Defined.

Lemma parse_item_fetch_error_witness :
  upstream slow (article_request "https://news.detik.com/a2") = Raised TimeoutException /\
  await (parse_item stub2) slow [] =
    (Err (HTTPException 504 "Timeout: unable to connect to https://news.detik.com/a2"),
     [article_request "https://news.detik.com/a2"]).
Proof.
  split; [reflexivity |].
  exact (proj1 (parse_item_fetch_error slow stub2 _ _ _ TimeoutException []
                  eq_refl eq_refl) eq_refl).
Defined.

Lemma parse_item_malformed_witness :
  stub_fields stub_untitled = None /\
  exists e,
    (e = AttributeError \/ e = KeyError "title" \/ e = KeyError "href") /\
    forall env log, await (parse_item stub_untitled) env log = (Err e, log).
Proof.
  split; [reflexivity |].
  exact (parse_item_malformed stub_untitled eq_refl).
Defined.

Lemma parse_fails_on_malformed_stub_witness :
  stubs_of "<listing 6>" = [stub2] ++ stub_untitled :: [] /\
  exists e,
    parse_item stub_untitled = Raise e /\
    parse search_url (page_params "banjir" 6) user_agent reversed [] =
      (Err e, [listing_request "banjir" 6;
               article_request "https://news.detik.com/a2"]).
Proof.
  split; [reflexivity |].
  refine (parse_fails_on_malformed_stub site (fun _ => [3; 2; 1; 0]%nat)
            search_url (page_params "banjir" 6) user_agent []
            (mkResponse 200 "<listing 6>" None) [stub2] stub_untitled []
            eq_refl eq_refl eq_refl _ eq_refl _).
  - constructor; [| constructor].
    exists "Banjir Bekasi", "Senin, 01 Jan 2024 11:00 WIB", "https://news.detik.com/a2".
    split; [reflexivity |]. split; [discriminate |].
    left. eexists; reflexivity.
  - constructor.
Defined.

Lemma scrape_requests_by_page_witness :
  1 <= 2 /\
  snd (scrape "banjir" 2 reversed []) =
    page_requests reversed "banjir" 1 ++ page_requests reversed "banjir" 2 ++ [].
Proof.
  split; [lia |].
  destruct (scrape_requests_by_page reversed "banjir" 2
              (fst (scrape "banjir" 2 reversed []))
              (snd (scrape "banjir" 2 reversed []))
              ltac:(lia) (surjective_pairing _)) as [_ Hok].
  assert (Hrun : exists items, fst (scrape "banjir" 2 reversed []) = Ok items)
    by (eexists; reflexivity).
  destruct Hrun as (items & Hrun). exact (Hok items Hrun).
Defined.

Lemma scrape_records_match_fetches_witness :
  exists items log,
    scrape "banjir" 2 in_order [] = (Ok items, log) /\
    map url items = ["https://news.detik.com/a1"; "https://news.detik.com/a2";
                     "https://news.detik.com/a3"] /\
    List.length items = 3%nat /\
    filter (fun rq => negb (is_listing rq)) log = map article_request (map url items).
Proof.
  eexists; eexists; split; [lazy; reflexivity |].
  exact (scrape_records_match_fetches in_order "banjir" 2 _ _ eq_refl).
Defined.

Lemma scrape_any_completion_order_witness :
  exists items log,
    scrape "banjir" 2 in_order [] = (Ok items, log) /\
    scrape "banjir" 2 reversed [] = (Ok items, log).
Proof.
  eexists; eexists; split; [lazy; reflexivity |].
  exact (scrape_any_completion_order site (fun _ => []) (fun _ => [3; 2; 1; 0]%nat)
           "banjir" 2 _ _ eq_refl).
Defined.

Lemma scrape_aborts_at_failing_page_witness :
  1 <= 6 /\
  PyStr.range 1 (6 + 1) = [1; 2; 3; 4] ++ 5 :: [6] /\
  (exists e, fst (scrape "banjir" 6 in_order []) = Err e) /\
  snd (scrape "banjir" 6 in_order []) =
    flat_map (page_requests in_order "banjir") ([1; 2; 3; 4] ++ [5]).
Proof.
  split; [lia |]. split; [reflexivity |].
  refine (scrape_aborts_at_failing_page in_order "banjir" 6 [1; 2; 3; 4] 5 [6] _ _
            ltac:(lia) eq_refl _ _ (surjective_pairing _)).
  - intros q [<- | [<- | [<- | [<- | []]]]]; eexists; reflexivity.
  - intros segment; discriminate.
Defined.


Lemma scrape_records_trimmed_witness :
  exists items log,
    scrape "banjir" 2 in_order [] = (Ok items, log) /\
    Forall (fun item => trimmed (title item) = true /\ trimmed (desc item) = true)
           items.
Proof.
  eexists; eexists; split; [lazy; reflexivity |].
  exact (scrape_records_trimmed in_order "banjir" 2 _ _ eq_refl).
Defined.

Lemma trending_ignores_status_witness :
  success 503 = false /\
  outcome (upstream (feed_with_status 200 payload_ab))
          (get_trending_keywords trending_url user_agent) =
  outcome (upstream (feed_with_status 503 payload_ab))
          (get_trending_keywords trending_url user_agent).
Proof.
  split; [reflexivity |].
  exact (trending_ignores_status (upstream (feed_with_status 200 payload_ab))
           (upstream (feed_with_status 503 payload_ab)) trending_url user_agent
           (mkResponse 200 "" (Some payload_ab)) (mkResponse 503 "" (Some payload_ab))
           eq_refl eq_refl eq_refl).
Defined.

Lemma trending_fetch_errors_witness :
  upstream feed_down (mkRequest trending_url [] user_agent 10) = Raised TimeoutException /\
  await (get_trending_keywords trending_url user_agent) feed_down [] =
    (Err (HTTPException 504
            "Timeout: unable to connect to https://explore-api.detik.com/trending"),
     [mkRequest trending_url [] user_agent 10]).
Proof.
  split; [reflexivity |].
  exact (proj1 (trending_fetch_errors feed_down trending_url user_agent []) eq_refl).
Defined.

Lemma trending_non_object_payload_witness :
  let payload := JArr [JStr "body"] in
  (forall o, payload <> JObj o) /\
  (outcome (upstream (feed payload)) (get_trending_keywords trending_url user_agent) =
     Ok [] \/
   outcome (upstream (feed payload)) (get_trending_keywords trending_url user_agent) =
     Err TypeError).
Proof.
  intros payload.
  assert (H : forall o, payload <> JObj o) by (intros o; discriminate).
  split; [exact H |].
  exact (trending_non_object_payload (upstream (feed payload)) trending_url user_agent
           (mkResponse 200 "" (Some payload)) payload eq_refl eq_refl H).
Defined.

Lemma trending_keywords_exact_witness :
  Forall2 keyword_is [JObj [("keyword", JStr "a")]; JObj [("keyword", JStr "b")]]
          [JStr "a"; JStr "b"] /\
  outcome (upstream (feed payload_ab)) (get_trending_keywords trending_url user_agent) =
    Ok [JStr "a"; JStr "b"].
Proof.
  assert (H : Forall2 keyword_is
                [JObj [("keyword", JStr "a")]; JObj [("keyword", JStr "b")]]
                [JStr "a"; JStr "b"])
    by (repeat constructor; eexists; split; reflexivity).
  split; [exact H |].
  exact (proj2 (proj1 (trending_keywords_exact (upstream (feed payload_ab))
                         trending_url user_agent (mkResponse 200 "" (Some payload_ab))
                         _ _ _ [JStr "a"; JStr "b"]
                         eq_refl eq_refl eq_refl eq_refl)) H).
Defined.

Lemma trending_non_list_witness :
  let top := JObj [("keyword", JStr "a")] in
  let payload := JObj [("body", JObj [("topKeywordSearch", top)])] in
  (forall l, top <> JArr l) /\
  outcome (upstream (feed payload)) (get_trending_keywords trending_url user_agent) =
    Err TypeError.
Proof.
  intros top payload.
  assert (H : forall l, top <> JArr l) by (intros l; discriminate).
  split; [exact H |].
  refine (proj2 (trending_non_list (upstream (feed payload)) trending_url user_agent
                   (mkResponse 200 "" (Some payload)) _ _ top
                   eq_refl eq_refl eq_refl eq_refl H) _ _); discriminate.
Defined.


(** Two failing content fetches: the exception is that of the answer that
    arrives first. *)
Example first_failure_by_arrival :
  fst (parse search_url (page_params "banjir" 1) user_agent flaky_first []) =
    Err (Httpx (TransportError "ConnectError")) /\
  fst (parse search_url (page_params "banjir" 1) user_agent flaky_last []) =
    Err (HTTPException 504 "Timeout: unable to connect to https://news.detik.com/a2") /\
  snd (parse search_url (page_params "banjir" 1) user_agent flaky_first []) =
  snd (parse search_url (page_params "banjir" 1) user_agent flaky_last []).
Proof. repeat split. Qed.

End FurtherWitnesses.
